(** * A shallow embedding of [src/blockchain.js] and of the driver script

    The JavaScript classes [Transactions], [Block] and [Blockchain] are
    embedded as records and functions; methods that mutate [this] return the
    new object state, methods that may [throw] return a [completion].

    The two external packages the code imports, [crypto-js/sha256] and
    [elliptic], are not part of the repository: the embedding is parametric
    in them (class [Crypto]).  A bit-level SHA-256 (FIPS 180-4) is given in
    module [Sha256] so that statements can also be evaluated on concrete
    inputs with the digest the program really computes. *)

From Stdlib Require Import NArith ZArith Ascii String List Lia.
From stdpp Require Import base decidable option list relations strings pretty.
Import ListNotations.

(** ** SHA-256 on byte strings (stand-in for [crypto-js/sha256]) *)

Module Sha256.
Local Open Scope N_scope.

Definition w32 (x : N) : N := N.land x 0xffffffff.
Definition add32 (x y : N) : N := w32 (x + y).
Definition rotr (n x : N) : N := N.lor (N.shiftr x n) (w32 (N.shiftl x (32 - n))).
Definition not32 (x : N) : N := N.lxor x 0xffffffff.

Definition Ch (x y z : N) : N := N.lxor (N.land x y) (N.land (not32 x) z).
Definition Maj (x y z : N) : N :=
  N.lxor (N.lxor (N.land x y) (N.land x z)) (N.land y z).
Definition Sigma0 (x : N) : N := N.lxor (N.lxor (rotr 2 x) (rotr 13 x)) (rotr 22 x).
Definition Sigma1 (x : N) : N := N.lxor (N.lxor (rotr 6 x) (rotr 11 x)) (rotr 25 x).
Definition sigma0 (x : N) : N := N.lxor (N.lxor (rotr 7 x) (rotr 18 x)) (N.shiftr x 3).
Definition sigma1 (x : N) : N := N.lxor (N.lxor (rotr 17 x) (rotr 19 x)) (N.shiftr x 10).

(** The first 64 primes. *)
Definition prime (n : N) : bool :=
  forallb (fun d => negb (n mod N.of_nat d =? 0)) (seq 2 (N.to_nat n - 2)).

Definition primes : list N := firstn 64 (filter prime (map N.of_nat (seq 2 320))).

(** Integer cube root, one bit at a time from bit [bits - 1] down. *)
Fixpoint cbrt_bits (bits : nat) (n r : N) : N :=
  match bits with
  | O => r
  | S b =>
      let c := N.lor r (N.shiftl 1 (N.of_nat b)) in
      if c * c * c <=? n then cbrt_bits b n c else cbrt_bits b n r
  end.

(** Round constants: the first 32 bits of the fractional parts of the cube
    roots of the primes. *)
Definition K : list N :=
  Eval vm_compute in map (fun p => w32 (cbrt_bits 40 (N.shiftl p 96) 0)) primes.

(** The eight working variables / chaining values. *)
Record state := St { sa : N; sb : N; sc : N; sd : N; se : N; sf : N; sg : N; sh : N }.

(** Initial value: the first 32 bits of the fractional parts of the square
    roots of the first eight primes. *)
Definition H0 : state :=
  Eval vm_compute in
    match map (fun p => w32 (N.sqrt (N.shiftl p 64))) (firstn 8 primes) with
    | [a; b; c; d; e; f; g; h] => St a b c d e f g h
    | _ => St 0 0 0 0 0 0 0 0
    end.

(** Message schedule: [w] is the sliding window W(t) .. W(t+15). *)
Fixpoint schedule (n : nat) (w : list N) : list N :=
  match n, w with
  | S n', w0 :: rest =>
      let wnew := add32 (add32 (sigma1 (nth 13 rest 0)) (nth 8 rest 0))
                        (add32 (sigma0 (nth 0 rest 0)) w0) in
      w0 :: schedule n' (rest ++ [wnew])
  | _, _ => []
  end.

Definition round (s : state) (kw : N * N) : state :=
  let t1 := add32 (add32 (add32 (sh s) (Sigma1 (se s))) (Ch (se s) (sf s) (sg s)))
                  (add32 (fst kw) (snd kw)) in
  let t2 := add32 (Sigma0 (sa s)) (Maj (sa s) (sb s) (sc s)) in
  St (add32 t1 t2) (sa s) (sb s) (sc s) (add32 (sd s) t1) (se s) (sf s) (sg s).

Fixpoint zip (k w : list N) : list (N * N) :=
  match k, w with
  | x :: k', y :: w' => (x, y) :: zip k' w'
  | _, _ => []
  end.

Definition compress (h : state) (block : list N) : state :=
  let s := fold_left round (zip K (schedule 64 block)) h in
  St (add32 (sa h) (sa s)) (add32 (sb h) (sb s)) (add32 (sc h) (sc s))
     (add32 (sd h) (sd s)) (add32 (se h) (se s)) (add32 (sf h) (sf s))
     (add32 (sg h) (sg s)) (add32 (sh h) (sh s)).

(** Big-endian packing of bytes into 32-bit words. *)
Fixpoint words (bytes : list N) : list N :=
  match bytes with
  | b0 :: b1 :: b2 :: b3 :: rest =>
      (N.shiftl b0 24 + N.shiftl b1 16 + N.shiftl b2 8 + b3) :: words rest
  | _ => []
  end.

Fixpoint be_bytes (n : nat) (x : N) : list N :=
  match n with
  | O => []
  | S n' => be_bytes n' (N.shiftr x 8) ++ [N.land x 0xff]
  end.

(** Padding: a 1 bit, zeros, then the bit length on 64 bits. *)
Definition pad (msg : list N) : list N :=
  let len := N.of_nat (length msg) in
  let zeros := N.to_nat ((119 - len mod 64) mod 64) in
  msg ++ [0x80] ++ repeat 0 zeros ++ be_bytes 8 (8 * len).

Fixpoint blocks (fuel : nat) (h : state) (ws : list N) : state :=
  match fuel with
  | O => h
  | S fuel' =>
      match ws with
      | [] => h
      | _ => blocks fuel' (compress h (firstn 16 ws)) (skipn 16 ws)
      end
  end.

Definition hexdigit (x : N) : ascii :=
  match x with
  | 0 => "0" | 1 => "1" | 2 => "2" | 3 => "3" | 4 => "4" | 5 => "5"
  | 6 => "6" | 7 => "7" | 8 => "8" | 9 => "9" | 10 => "a" | 11 => "b"
  | 12 => "c" | 13 => "d" | 14 => "e" | _ => "f"
  end%char.

Definition nibble (x : N) (i : N) : ascii := hexdigit (N.land (N.shiftr x (4 * i)) 0xf).

Definition hex32 (x : N) (k : string) : string :=
  String (nibble x 7) (String (nibble x 6) (String (nibble x 5) (String (nibble x 4)
  (String (nibble x 3) (String (nibble x 2) (String (nibble x 1) (String (nibble x 0) k))))))).

Definition hex_of_state (s : state) : string :=
  hex32 (sa s) (hex32 (sb s) (hex32 (sc s) (hex32 (sd s)
  (hex32 (se s) (hex32 (sf s) (hex32 (sg s) (hex32 (sh s) EmptyString))))))).

Definition bytes_of_string (s : string) : list N := map N_of_ascii (list_ascii_of_string s).

Definition digest (s : string) : string :=
  let ws := words (pad (bytes_of_string s)) in
  hex_of_state (blocks (length ws) H0 ws).

End Sha256.

Local Open Scope Z_scope.

(** ** JavaScript values and completions *)

(** A thrown JavaScript exception: [new Error(message)], or the [TypeError]
    the engine raises when a missing method or property is used. *)
Inductive exn : Type :=
| Error (message : string)
| TypeError (message : string).

(** The outcome of a call: it returns a value or throws. *)
Inductive completion (A : Type) : Type :=
| Return (a : A)
| Throw (e : exn).
Arguments Return {A} a.
Arguments Throw {A} e.

#[global] Instance completion_ret : MRet completion := fun A a => Return a.
#[global] Instance completion_bind : MBind completion := fun A B f c =>
  match c with
  | Return a => f a
  | Throw e => Throw e
  end.

(** The external packages: [SHA256(msg).toString()] of crypto-js (lowercase
    hex digest of the UTF-8 bytes of [msg]) and the secp256k1 key pairs of
    elliptic.  [signDER k h] is [k.sign(h, 'base64').toDER('hex')] and
    [verify a h s] is [ec.keyFromPublic(a, 'hex').verify(h, s)]; both are
    taken to return (a key pair holds a private key, addresses and
    signatures are well-formed hex).  Strings are byte strings (the UTF-8
    text), numbers are integers printed in decimal, and what [console.log]
    prints is left out. *)
Class Crypto : Type := {
  SHA256 : string -> string;
  KeyPair : Type;
  getPublic : KeyPair -> string;
  signDER : KeyPair -> string -> string;
  verify : string -> string -> string -> bool
}.

(** An address is [null] ([None]) or a string. *)
Definition address : Type := option string.

(** [!a] for an address: [null] and the empty string are falsy. *)
Definition falsy (a : address) : bool :=
  match a with
  | None => true
  | Some s => String.eqb s ""
  end.

(** String conversion in [a + b]: [null] prints as [null]. *)
Definition jsString (a : address) : string := default "null" a.

(** *** [JSON.stringify] on the values the program serialises *)

Definition dquote : ascii := "034"%char.

Definition jsonEscape (c : ascii) : string :=
  let n := N_of_ascii c in
  if (n =? 8)%N then "\b"
  else if (n =? 9)%N then "\t"
  else if (n =? 10)%N then "\n"
  else if (n =? 12)%N then "\f"
  else if (n =? 13)%N then "\r"
  else if (n =? 34)%N then String "\" (String dquote "")
  else if (n =? 92)%N then "\\"
  else if (n <? 32)%N then
    "\u00" +:+ String (Sha256.hexdigit (n / 16)) (String (Sha256.hexdigit (n mod 16)) "")
  else String c "".

Fixpoint jsonEscapes (s : string) : string :=
  match s with
  | EmptyString => EmptyString
  | String c s' => jsonEscape c +:+ jsonEscapes s'
  end.

Definition jsonString (s : string) : string :=
  String dquote (jsonEscapes s +:+ String dquote "").

Definition jsonAddress (a : address) : string :=
  match a with
  | None => "null"
  | Some s => jsonString s
  end.

(** ** class Transactions *)

Module Transactions.

(** [signature] is [None] until [signTransaction] creates the property. *)
Record t : Type := Build {
  fromAddress : address;
  toAddress : address;
  amount : Z;
  signature : option string
}.

Definition new (fromAddress toAddress : address) (amount : Z) : t :=
  Build fromAddress toAddress amount None.

Definition set_amount (v : Z) (tx : t) : t :=
  Build (fromAddress tx) (toAddress tx) v (signature tx).

Definition set_signature (sig : string) (tx : t) : t :=
  Build (fromAddress tx) (toAddress tx) (amount tx) (Some sig).

(** The argument of [SHA256] in [calculateHash].  (With both addresses
    [null] JavaScript would add numbers instead of concatenating; the
    methods below never hash such a record.) *)
Definition preimage (tx : t) : string :=
  jsString (fromAddress tx) +:+ jsString (toAddress tx) +:+ pretty (amount tx).

(** [JSON.stringify(tx)]: own properties in creation order. *)
Definition toJSON (tx : t) : string :=
  "{" +:+ jsonString "fromAddress" +:+ ":" +:+ jsonAddress (fromAddress tx)
  +:+ "," +:+ jsonString "toAddress" +:+ ":" +:+ jsonAddress (toAddress tx)
  +:+ "," +:+ jsonString "amount" +:+ ":" +:+ pretty (amount tx)
  +:+ match signature tx with
      | None => ""
      | Some sig => "," +:+ jsonString "signature" +:+ ":" +:+ jsonString sig
      end
  +:+ "}".

Section WithCrypto.
Context {crypto : Crypto}.

Definition calculateHash (tx : t) : string := SHA256 (preimage tx).

(** Returns the record after the call and how the call completed. *)
Definition signTransaction (signingKey : KeyPair) (tx : t) : t * completion unit :=
  if bool_decide (Some (getPublic signingKey) ≠ fromAddress tx) then
    (tx, Throw (Error "You cannot sign transactions for other wallets!"))
  else
    let hashTx := calculateHash tx in
    let sig := signDER signingKey hashTx in
    (set_signature sig tx, Return ()).

Definition isValid (tx : t) : completion bool :=
  match fromAddress tx with
  | None => Return true
  | Some sender =>
      match signature tx with
      | None => Throw (Error "No signature in this transaction")
      | Some sig =>
          if Nat.eqb (String.length sig) 0
          then Throw (Error "No signature in this transaction")
          else Return (verify sender (calculateHash tx) sig)
      end
  end.

End WithCrypto.
End Transactions.

(** ** class Block *)

Module Block.

(** What [this.transactions] holds: the array of [Transactions] objects of
    a mined block, or the string the genesis block is built with. *)
Inductive txseq : Type :=
| TxArray (txs : list Transactions.t)
| TxString (s : string).

Record t : Type := Build {
  timestamp : Z;
  transactions : txseq;
  previousHash : string;
  hash : string;
  nonce : Z
}.

Definition set_hash (h : string) (b : t) : t :=
  Build (timestamp b) (transactions b) (previousHash b) h (nonce b).

Definition set_nonce (n : Z) (b : t) : t :=
  Build (timestamp b) (transactions b) (previousHash b) (hash b) n.

Definition set_transactions (txs : txseq) (b : t) : t :=
  Build (timestamp b) txs (previousHash b) (hash b) (nonce b).

Definition jsonArray (txs : list Transactions.t) : string :=
  "[" +:+ String.concat "," (map Transactions.toJSON txs) +:+ "]".

Definition stringify (txs : txseq) : string :=
  match txs with
  | TxArray l => jsonArray l
  | TxString s => jsonString s
  end.

(** The argument of [SHA256] in [calculateHash]; [this.index] is never
    assigned and prints as [undefined]; [nonceText] is the text of
    [this.nonce] at the time of the call. *)
Definition preimage (previousHash : string) (timestamp : Z) (txs : txseq)
    (nonceText : string) : string :=
  "undefined" +:+ previousHash +:+ pretty timestamp +:+ stringify txs +:+ nonceText.

(** [Array(difficulty + 1).join('0')] *)
Definition target (difficulty : nat) : string :=
  String.concat "0" (repeat "" (difficulty + 1)%nat).

Definition sealed (difficulty : nat) (h : string) : bool :=
  String.eqb (substring 0 difficulty h) (target difficulty).

(** The text [calculateHash] digests on a constructed block. *)
Definition text (b : t) : string :=
  preimage (previousHash b) (timestamp b) (transactions b) (pretty (nonce b)).

Section WithCrypto.
Context {crypto : Crypto}.

Definition calculateHash (b : t) : string := SHA256 (text b).

(** The constructor assigns [hash] before [nonce]: [calculateHash] runs
    while [this.nonce] is still [undefined]. *)
Definition new (timestamp : Z) (transactions : txseq) (previousHash : string) : t :=
  let h := SHA256 (preimage previousHash timestamp transactions "undefined") in
  Build timestamp transactions previousHash h 0.

(** The loop body of [mineBlock]:
    [this.nonce++; this.hash = this.calculateHash()]. *)
Definition nextNonce (b : t) : t :=
  let b1 := set_nonce (nonce b + 1) b in
  set_hash (calculateHash b1) b1.

(** The [while] loop of [mineBlock], at most [fuel] iterations;
    [None] when the loop has not finished by then. *)
Fixpoint mineBlock (fuel : nat) (difficulty : nat) (b : t) : option t :=
  if sealed difficulty (hash b) then Some b
  else
    match fuel with
    | O => None
    | S fuel' => mineBlock fuel' difficulty (nextNonce b)
    end.

Fixpoint allValid (txs : list Transactions.t) : completion bool :=
  match txs with
  | [] => Return true
  | tx :: rest =>
      v ← Transactions.isValid tx;
      if negb v then Return false else allValid rest
  end.

(** Iterating a string yields its characters, which have no [isValid]. *)
Definition hasValidTransactions (b : t) : completion bool :=
  match transactions b with
  | TxArray txs => allValid txs
  | TxString EmptyString => Return true
  | TxString (String _ _) => Throw (TypeError "tx.isValid is not a function")
  end.

End WithCrypto.
End Block.

(** ** class Blockchain *)

Module Blockchain.

Record t : Type := Build {
  chain : list Block.t;
  difficulty : nat;
  pendingTransactions : list Transactions.t;
  mimingReward : Z
}.

Definition set_chain (c : list Block.t) (bc : t) : t :=
  Build c (difficulty bc) (pendingTransactions bc) (mimingReward bc).

Definition set_pendingTransactions (p : list Transactions.t) (bc : t) : t :=
  Build (chain bc) (difficulty bc) p (mimingReward bc).

(** One transaction's contribution to the running balance. *)
Definition balanceStep (a : address) (balance : Z) (trans : Transactions.t) : Z :=
  let balance1 :=
    if bool_decide (Transactions.fromAddress trans = a)
    then balance - Transactions.amount trans else balance in
  if bool_decide (Transactions.toAddress trans = a)
  then balance1 + Transactions.amount trans else balance1.

(** The characters of a string have no [fromAddress] or [toAddress]
    ([undefined], never [===] to an address): they leave the balance as is. *)
Definition balanceBlock (a : address) (balance : Z) (block : Block.t) : Z :=
  match Block.transactions block with
  | Block.TxArray txs => fold_left (balanceStep a) txs balance
  | Block.TxString _ => balance
  end.

Definition getAddressOfBalance (a : address) (bc : t) : Z :=
  fold_left (balanceBlock a) (chain bc) 0.

(** [this.chain[this.chain.length - 1]]; [None] is [undefined]. *)
Definition getLatestBlock (bc : t) : option Block.t :=
  chain bc !! (length (chain bc) - 1)%nat.

Section WithCrypto.
Context {crypto : Crypto}.

(** [new Block(0, "02/10/2018", "GenesisBlock", "0")]: the constructor takes
    (timestamp, transactions, previousHash); the fourth argument is dropped. *)
Definition createGenesisBlock : Block.t :=
  Block.new 0 (Block.TxString "02/10/2018") "GenesisBlock".

Definition new : t := Build [createGenesisBlock] 2 [] 100.

(** [now] is the value of [Date.now()]; [None] when the proof-of-work loop
    has not finished within [fuel] iterations.  The block is built without a
    third argument, so its [previousHash] is the default ['']. *)
Definition minePendingTransaction (fuel : nat) (now : Z) (miningRewardAddress : address)
    (bc : t) : option t :=
  let block := Block.new now (Block.TxArray (pendingTransactions bc)) "" in
  mined ← Block.mineBlock fuel (difficulty bc) block;
  Some (Build (chain bc ++ [mined]) (difficulty bc)
              [Transactions.new None miningRewardAddress (mimingReward bc)]
              (mimingReward bc)).

Definition addTransaction (transactions : Transactions.t) (bc : t) : t * completion unit :=
  if falsy (Transactions.fromAddress transactions)
     || falsy (Transactions.toAddress transactions)
  then (bc, Throw (Error "Transaction must include from and to address"))
  else
    match Transactions.isValid transactions with
    | Throw e => (bc, Throw e)
    | Return false => (bc, Throw (Error "Cannot add an invalid transaction to the chain"))
    | Return true =>
        (set_pendingTransactions (pendingTransactions bc ++ [transactions]) bc, Return ())
    end.

(** The loop of [isChainValid] from index [i] on, [previousBlock] being
    [chain[i - 1]] and [rest] the blocks [chain[i]], [chain[i + 1]], ... *)
Fixpoint isChainValidFrom (previousBlock : Block.t) (rest : list Block.t) : completion bool :=
  match rest with
  | [] => Return true
  | currentBlock :: rest' =>
      v ← Block.hasValidTransactions currentBlock;
      if negb v then Return false
      else if negb (String.eqb (Block.hash currentBlock) (Block.calculateHash currentBlock))
      then Return false
      else if negb (String.eqb (Block.previousHash currentBlock) (Block.hash previousBlock))
      then Return false
      else isChainValidFrom currentBlock rest'
  end.

Definition isChainValid (bc : t) : completion bool :=
  match chain bc with
  | [] => Return true
  | genesis :: rest => isChainValidFrom genesis rest
  end.

End WithCrypto.
End Blockchain.

(** ** The driver script *)

Module Main.

(** [chain[i].transactions[j].amount = v], the record at that place being
    held nowhere else in the chain; [None] when [chain[i]] or
    [chain[i].transactions[j]] is not a transaction object. *)
Definition tamperAmount (i j : nat) (v : Z) (bc : Blockchain.t) : option Blockchain.t :=
  b ← Blockchain.chain bc !! i;
  match Block.transactions b with
  | Block.TxArray txs =>
      tx ← txs !! j;
      let txs' := <[j := Transactions.set_amount v tx]> txs in
      Some (Blockchain.set_chain
              (<[i := Block.set_transactions (Block.TxArray txs') b]> (Blockchain.chain bc)) bc)
  | Block.TxString _ => None
  end.

(** The same assignment, [obj.amount = v], when the record [obj] is held at
    several places: [held i j] tells whether [chain[i].transactions[j]] is
    [obj], and every such place shows the new amount. *)
Definition retouchTxs (v : Z) (held : nat -> bool) (txs : list Transactions.t) :
    list Transactions.t :=
  imap (fun j tx => if held j then Transactions.set_amount v tx else tx) txs.

Definition retouchBlock (v : Z) (held : nat -> bool) (b : Block.t) : Block.t :=
  match Block.transactions b with
  | Block.TxArray txs => Block.set_transactions (Block.TxArray (retouchTxs v held txs)) b
  | Block.TxString _ => b
  end.

Definition assignShared (v : Z) (held : nat -> nat -> bool) (bc : Blockchain.t) :
    Blockchain.t :=
  Blockchain.set_chain
    (imap (fun i => retouchBlock v (held i)) (Blockchain.chain bc)) bc.

Section WithCrypto.
Context {crypto : Crypto}.

(** [tx1] after [tx1.signTransaction(myKey)]. *)
Definition tx1 (myKey : KeyPair) (recipient : string) : Transactions.t :=
  (Transactions.signTransaction myKey
     (Transactions.new (Some (getPublic myKey)) (Some recipient) 10)).1.

(** The ledger after [addTransaction(tx1)] and
    [minePendingTransaction(myWalletAddress)]. *)
Definition mined (fuel : nat) (now : Z) (myKey : KeyPair) (recipient : string) :
    option Blockchain.t :=
  Blockchain.minePendingTransaction fuel now (Some (getPublic myKey))
    (Blockchain.addTransaction (tx1 myKey recipient) Blockchain.new).1.

(** The ledger after [savjeeCoin.chain[1].transactions[0].amount = 1]. *)
Definition tampered (fuel : nat) (now : Z) (myKey : KeyPair) (recipient : string) :
    option Blockchain.t :=
  bc ← mined fuel now myKey recipient; tamperAmount 1 0 1 bc.

End WithCrypto.
End Main.

(** ** A concrete provider

    [Sha256.digest] for the digest, and a keyed-digest stand-in for the
    secp256k1 signatures of elliptic: with it the definitions above run on
    concrete inputs.  The theorems below hold for every provider. *)

Module Demo.

Definition publicOf (k : string) : string := "04" +:+ k.

Definition signWith (k : string) (h : string) : string :=
  "30" +:+ Sha256.digest (publicOf k +:+ h).

Definition check (a h sig : string) : bool :=
  String.eqb sig ("30" +:+ Sha256.digest (a +:+ h)).

Definition crypto : Crypto := {|
  SHA256 := Sha256.digest;
  KeyPair := string;
  getPublic := publicOf;
  signDER := signWith;
  verify := check
|}.

(** The private key, the wallet address and the recipient of the driver
    script, and a value for [Date.now()]. *)
Definition myKey : string :=
  "b318061d2816e272de3bede908a754003e536bcafa200c0fe32126e3239445cd".

Definition myWalletAddress : string := publicOf myKey.

Definition recipient : string := "public key goes here".

Definition now : Z := 1700000000000.

(** The objects the script builds with this provider (see [demo_mined]). *)
Definition genesis : Block.t :=
  Block.Build 0 (Block.TxString "02/10/2018") "GenesisBlock"
    "b4c7e48c7b74a420ebff93b1def4d4f931a77a93bd596e8dd1622461abe68278" 0.

Definition tx1 : Transactions.t :=
  Transactions.Build (Some myWalletAddress) (Some recipient) 10
    (Some "3085186f7e6fe2352594eec90c181455ae14060a53cac775c87e580fea194facaf").

Definition block1 : Block.t :=
  Block.Build now (Block.TxArray [tx1]) ""
    "0050c38285571dc54f01d96878145a539a921ead3726482e280ac1ecd0268ca7" 197.

Definition minedLedger : Blockchain.t :=
  Blockchain.Build [genesis; block1] 2
    [Transactions.new None (Some myWalletAddress) 100] 100.

(** A fresh ledger after [minePendingTransaction('miner')]
    (see [demo_fresh_mined]). *)
Definition freshMined : Blockchain.t :=
  Blockchain.Build
    [genesis;
     Block.Build now (Block.TxArray []) ""
       "001d06005bf51909a0253e45719329fbad8ec9e702e16b1647f445ccccf1c64a" 14]
    2 [Transactions.new None (Some "miner") 100] 100.

(** A ledger linked by hand: its second block carries the hash of the
    genesis block and the digest of its own text. *)
Definition linkedBlock : Block.t :=
  let b := Block.Build now (Block.TxArray [Transactions.new None (Some "miner") 100])
             (Block.hash genesis) "" 0 in
  Block.set_hash (@Block.calculateHash crypto b) b.

Definition linked : Blockchain.t := Blockchain.Build [genesis; linkedBlock] 2 [] 100.

(** The same with a second block that holds the record [tx1] twice. *)
Definition sharedBlock : Block.t :=
  let b := Block.Build now (Block.TxArray [tx1; tx1]) (Block.hash genesis) "" 0 in
  Block.set_hash (@Block.calculateHash crypto b) b.

Definition shared : Blockchain.t := Blockchain.Build [genesis; sharedBlock] 2 [] 100.

Definition sharedPlaces (i j : nat) : bool := Nat.eqb i 1 && Nat.ltb j 2.

(** Two records with a sender: [tx1] with its amount changed after signing,
    whose signature no longer verifies, and one never signed. *)
Definition badlySigned : Transactions.t := Transactions.set_amount 1 tx1.

Definition neverSigned : Transactions.t :=
  Transactions.new (Some myWalletAddress) (Some recipient) 7.

End Demo.

(** ** Vocabulary of the statements *)

(** A transaction's JSON text is its amount between two texts that do not
    depend on the amount. *)
Definition jsonBeforeAmount (tx : Transactions.t) : string :=
  "{" +:+ jsonString "fromAddress" +:+ ":" +:+ jsonAddress (Transactions.fromAddress tx)
  +:+ "," +:+ jsonString "toAddress" +:+ ":" +:+ jsonAddress (Transactions.toAddress tx)
  +:+ "," +:+ jsonString "amount" +:+ ":".

Definition jsonAfterAmount (tx : Transactions.t) : string :=
  match Transactions.signature tx with
  | None => ""
  | Some sig => "," +:+ jsonString "signature" +:+ ":" +:+ jsonString sig
  end +:+ "}".

(** A character that ends a number in the JSON text of a record. *)
Definition closes (c : ascii) : bool := Ascii.eqb c "," || Ascii.eqb c "}".

(** A text without such a character. *)
Fixpoint plain (s : string) : bool :=
  match s with
  | EmptyString => true
  | String c s' => negb (closes c) && plain s'
  end.

Section Vocabulary.
Context {crypto : Crypto}.

(** The block after [k] iterations of the mining loop body. *)
Definition afterNonces (k : nat) (b : Block.t) : Block.t := Nat.iter k Block.nextNonce b.

(** The texts [x] and [y] do not collide under SHA256. *)
Definition noCollision (x y : string) : Prop := SHA256 x = SHA256 y -> x = y.

(** [isValid] returns [true]. *)
Definition validTx (tx : Transactions.t) : Prop := Transactions.isValid tx = Return true.

(** A record with a sender and no (or an empty) signature. *)
Definition unsigned (tx : Transactions.t) : Prop :=
  Transactions.fromAddress tx <> None
  /\ (Transactions.signature tx = None \/ Transactions.signature tx = Some "").

(** One iteration of the loop of [isChainValid]: the three checks. *)
Definition passes (previousBlock currentBlock : Block.t) : Prop :=
  Block.hasValidTransactions currentBlock = Return true
  /\ Block.hash currentBlock = Block.calculateHash currentBlock
  /\ Block.previousHash currentBlock = Block.hash previousBlock.

(** The calls that build a ledger: [addTransaction] (whether it returns or
    throws) and a [minePendingTransaction] that returns. *)
Inductive step : Blockchain.t -> Blockchain.t -> Prop :=
| step_addTransaction (tx : Transactions.t) (bc : Blockchain.t) :
    step bc (Blockchain.addTransaction tx bc).1
| step_minePendingTransaction (fuel : nat) (now : Z) (miner : address)
    (bc bc' : Blockchain.t) :
    Blockchain.minePendingTransaction fuel now miner bc = Some bc' ->
    step bc bc'.

(** The ledgers built from [new Blockchain()] by such calls. *)
Definition reachable (bc : Blockchain.t) : Prop := rtc step Blockchain.new bc.

(** What every block appended by [minePendingTransaction] looks like. *)
Definition minedBlock (b : Block.t) : Prop :=
  Block.previousHash b = ""
  /\ exists txs, Block.transactions b = Block.TxArray txs /\ Forall validTx txs.

Definition ledgerInv (bc : Blockchain.t) : Prop :=
  exists rest,
    Blockchain.chain bc = Blockchain.createGenesisBlock :: rest
    /\ Forall minedBlock rest
    /\ Forall validTx (Blockchain.pendingTransactions bc).

End Vocabulary.

(** ** Vocabulary of the further properties *)

(** What the transactions [txs] add to the balance of [a]. *)
Definition netOfTxs (a : address) (txs : list Transactions.t) : Z :=
  fold_left (Blockchain.balanceStep a) txs 0.

(** The sum of the balances of the addresses [addrs]. *)
Definition totalBalance (addrs : list address) (bc : Blockchain.t) : Z :=
  foldr Z.add 0 (map (fun a => Blockchain.getAddressOfBalance a bc) addrs).

(** Every sender and recipient of a mined transaction is in [addrs]. *)
Definition coversEndpoints (addrs : list address) (bc : Blockchain.t) : Prop :=
  forall b txs tx,
    b ∈ Blockchain.chain bc -> Block.transactions b = Block.TxArray txs -> tx ∈ txs ->
    Transactions.fromAddress tx ∈ addrs /\ Transactions.toAddress tx ∈ addrs.

(** [Number.MAX_SAFE_INTEGER], 2^53 - 1.  The program's numbers are
    binary64: on integers that stay within this bound its additions and
    subtractions are exact and its printing is the decimal one, which is
    how the embedding computes and prints. *)
Definition maxSafeInteger : Z := 9007199254740991.

(** The transaction objects a block holds; a string holds none. *)
Definition blockTxs (b : Block.t) : list Transactions.t :=
  match Block.transactions b with
  | Block.TxArray txs => txs
  | Block.TxString _ => []
  end.

(** The transactions of the chain, in the order [getAddressOfBalance]
    visits them. *)
Definition minedTxs (bc : Blockchain.t) : list Transactions.t :=
  flat_map blockTxs (Blockchain.chain bc).

Definition sumZ (l : list Z) : Z := foldr Z.add 0 l.

(** What [a] receives in [txs], and what it sends. *)
Definition received (a : address) (txs : list Transactions.t) : Z :=
  sumZ (map Transactions.amount (filter (fun tx => Transactions.toAddress tx = a) txs)).

Definition sent (a : address) (txs : list Transactions.t) : Z :=
  sumZ (map Transactions.amount (filter (fun tx => Transactions.fromAddress tx = a) txs)).

(** The absolute values of the amounts of [txs], added up: a bound on
    every value a balance takes while the loop runs over [txs]. *)
Definition volume (txs : list Transactions.t) : Z :=
  sumZ (map (fun tx => Z.abs (Transactions.amount tx)) txs).

Section FurtherVocabulary.
Context {crypto : Crypto}.

(** [addTransaction] returns on [tx]. *)
Definition accepted (tx : Transactions.t) : bool :=
  negb (falsy (Transactions.fromAddress tx) || falsy (Transactions.toAddress tx))
  && match Transactions.isValid tx with
     | Return true => true
     | _ => false
     end.

(** The ledger after [addTransaction] was called on each of [txs] in turn,
    whether the calls returned or threw. *)
Definition addAll (txs : list Transactions.t) (bc : Blockchain.t) : Blockchain.t :=
  fold_left (fun bc tx => (Blockchain.addTransaction tx bc).1) txs bc.

(** A transaction as the methods let it into a ledger: [isValid] returns
    [true] on it, and without a sender it is a reward of 100 that carries
    no signature. *)
Definition legitimate (tx : Transactions.t) : Prop :=
  validTx tx
  /\ (Transactions.fromAddress tx = None ->
      Transactions.amount tx = 100 /\ Transactions.signature tx = None).

(** A block as [minePendingTransaction] appends it to a ledger built by the
    methods. *)
Definition appended (b : Block.t) : Prop :=
  Block.previousHash b = ""
  /\ Block.sealed 2 (Block.hash b) = true
  /\ 0 <= Block.nonce b
  /\ exists txs, Block.transactions b = Block.TxArray txs /\ Forall legitimate txs.

End FurtherVocabulary.






(** ** Further objects built with the concrete provider *)

Module Sample.

(** The value of [Date.now()] at a second [minePendingTransaction]. *)
Definition now2 : Z := 1700000010000.

(** The ledger of the script after a second call,
    [minePendingTransaction('miner')] (see [demo_twice_mined]). *)
Definition block2 : Block.t :=
  Block.Build now2 (Block.TxArray [Transactions.new None (Some Demo.myWalletAddress) 100]) ""
    "009abbaa52f316da48244e6ec67109a2800c654727d89a5e45c1d15aa58decb6" 126.

Definition twiceMined : Blockchain.t :=
  Blockchain.Build [Demo.genesis; Demo.block1; block2] 2
    [Transactions.new None (Some "miner") 100] 100.




(** A first block that has nothing of the genesis block but its hash. *)
Definition otherFirst : Block.t :=
  Block.Build 5 (Block.TxArray []) "anything" (Block.hash Demo.genesis) 7.

End Sample.

(** * Properties *)

(** ** The digest: FIPS 180-4 test vectors *)

Example sha256_round_constants :
  length Sha256.K = 64%nat
  /\ nth 0 Sha256.K 0%N = 0x428a2f98%N /\ nth 63 Sha256.K 0%N = 0xc67178f2%N
  /\ Sha256.sa Sha256.H0 = 0x6a09e667%N /\ Sha256.sh Sha256.H0 = 0x5be0cd19%N.
Proof. repeat split. Qed.

Example sha256_empty :
  Sha256.digest "" = "e3b0c44298fc1c149afbf4c8996fb92427ae41e4649b934ca495991b7852b855".
Proof. vm_compute. reflexivity. Qed.

Example sha256_abc :
  Sha256.digest "abc" = "ba7816bf8f01cfea414140de5dae2223b00361a396177a9cb410ff61f20015ad".
Proof. vm_compute. reflexivity. Qed.

Example sha256_two_blocks :
  Sha256.digest "aaaaaaaaaaaaaaaaaaaaaaaaaaaaaaaaaaaaaaaaaaaaaaaaaaaaaaaaaaaaaaaaaaaaaa"
  = "6bd5e5034855a11241f0dee8fc72850ffd9955b28347a86428b5fa19119f6ad0".
Proof. vm_compute. reflexivity. Qed.

Lemma sha256_length (s : string) : String.length (Sha256.digest s) = 64%nat.
Proof. reflexivity. Qed.

(** ** Strings and serialisation *)

Lemma string_app_length (s1 s2 : string) :
  String.length (s1 +:+ s2) = (String.length s1 + String.length s2)%nat.
Proof. induction s1 as [|c s1 IH]; simpl; [reflexivity | now rewrite IH]. Qed.

Lemma string_app_inv_tail (s1 s2 t : string) : s1 +:+ t = s2 +:+ t -> s1 = s2.
Proof.
  revert s2. induction s1 as [|c s1 IH]; intros [|d s2] H.
  - reflexivity.
  - apply (f_equal String.length) in H.
    rewrite !string_app_length in H. simpl in H. lia.
  - apply (f_equal String.length) in H.
    rewrite !string_app_length in H. simpl in H. lia.
  - injection H as -> H. f_equal. now apply IH.
Qed.

Lemma string_app_inv_head (s t1 t2 : string) : s +:+ t1 = s +:+ t2 -> t1 = t2.
Proof. apply (inj (String.app s)). Qed.

Lemma string_app_assoc (a b c : string) : (a +:+ b) +:+ c = a +:+ b +:+ c.
Proof.
  induction a as [|x a IH]; [reflexivity|].
  change (String x ((a +:+ b) +:+ c) = String x (a +:+ b +:+ c)).
  now rewrite IH.
Qed.

Lemma toJSON_split (tx : Transactions.t) :
  Transactions.toJSON tx
  = jsonBeforeAmount tx +:+ pretty (Transactions.amount tx) +:+ jsonAfterAmount tx.
Proof.
  unfold Transactions.toJSON, jsonBeforeAmount, jsonAfterAmount.
  now rewrite !string_app_assoc.
Qed.

Lemma toJSON_amount_inj (v : Z) (tx : Transactions.t) :
  Transactions.toJSON (Transactions.set_amount v tx) = Transactions.toJSON tx ->
  v = Transactions.amount tx.
Proof.
  rewrite !toJSON_split.
  change (jsonBeforeAmount (Transactions.set_amount v tx)) with (jsonBeforeAmount tx).
  change (jsonAfterAmount (Transactions.set_amount v tx)) with (jsonAfterAmount tx).
  intros H. apply string_app_inv_head, string_app_inv_tail in H.
  now apply (inj pretty) in H.
Qed.

Lemma concat_insert_inj (sep : string) (l : list string) (j : nat) (x y : string) :
  l !! j = Some x ->
  String.concat sep (<[j := y]> l) = String.concat sep l -> y = x.
Proof.
  revert j. induction l as [|a l IH]; intros [|j] Hj H; simplify_eq/=.
  - destruct l as [|b l]; [assumption|].
    now apply string_app_inv_tail in H.
  - destruct l as [|b l]; [discriminate|].
    destruct (<[j := y]> (b :: l)) as [|b' l'] eqn:E.
    { apply (f_equal length) in E. rewrite length_insert in E. discriminate. }
    do 2 apply string_app_inv_head in H.
    rewrite <- E in H. now apply (IH j).
Qed.

(** Changing one amount changes the text [Block.calculateHash] digests. *)
Lemma block_preimage_amount_inj (prev : string) (ts : Z) (txs : list Transactions.t)
    (nonceText : string) (j : nat) (tx : Transactions.t) (v : Z) :
  txs !! j = Some tx ->
  Block.preimage prev ts
    (Block.TxArray (<[j := Transactions.set_amount v tx]> txs)) nonceText
  = Block.preimage prev ts (Block.TxArray txs) nonceText ->
  v = Transactions.amount tx.
Proof.
  intros Hj H. unfold Block.preimage, Block.stringify, Block.jsonArray in H.
  do 3 apply string_app_inv_head in H.
  apply string_app_inv_tail, string_app_inv_head, string_app_inv_tail in H.
  rewrite list_fmap_insert in H.
  apply concat_insert_inj with (x := Transactions.toJSON tx) in H.
  - now apply toJSON_amount_inj.
  - change (map Transactions.toJSON txs) with (Transactions.toJSON <$> txs).
    now rewrite list_lookup_fmap, Hj.
Qed.

(** *** Numbers in the text of a list of records *)

Lemma plain_pretty_N_go (x : N) (s : string) :
  plain s = true -> plain (pretty_N_go x s) = true.
Proof.
  revert s. induction (N.lt_wf_0 x) as [x _ IH]; intros s Hs.
  destruct (decide (x = 0)%N) as [->|Hx]; [now rewrite pretty_N_go_0|].
  rewrite pretty_N_go_step by lia. apply IH; [apply N.div_lt; lia|].
  simpl. rewrite Hs. unfold pretty_N_char. now repeat case_match.
Qed.

Lemma plain_pretty_Z (z : Z) : plain (pretty z) = true.
Proof.
  assert (forall p : positive, plain (pretty p) = true) as Hp.
  { intros p. unfold pretty, pretty_positive, pretty, pretty_N.
    case_decide; [reflexivity|]. now apply plain_pretty_N_go. }
  destruct z as [|p|p]; [reflexivity | apply Hp |].
  change (pretty (Z.neg p)) with (String "-" (pretty p)). simpl. apply Hp.
Qed.

Lemma plain_split (s1 s2 r1 r2 : string) (c1 c2 : ascii) :
  plain s1 = true -> plain s2 = true -> closes c1 = true -> closes c2 = true ->
  s1 +:+ String c1 r1 = s2 +:+ String c2 r2 -> s1 = s2.
Proof.
  intros H1 H2 Hc1 Hc2. revert s2 H2.
  induction s1 as [|a s1 IH]; intros [|d s2] H2 E.
  - reflexivity.
  - injection E as -> _. simpl in H2. rewrite Hc1 in H2. discriminate.
  - injection E as -> _. simpl in H1. rewrite Hc2 in H1. discriminate.
  - injection E as -> E. f_equal. simpl in H1, H2.
    apply andb_true_iff in H1 as [_ H1]. apply andb_true_iff in H2 as [_ H2].
    now apply IH.
Qed.

Lemma jsonAfterAmount_closes (tx : Transactions.t) :
  exists c r, jsonAfterAmount tx = String c r /\ closes c = true.
Proof.
  unfold jsonAfterAmount. destruct (Transactions.signature tx); eexists _, _; split;
    reflexivity.
Qed.

(** The text of a list of records followed by [k]: what follows an
    element is a comma and the next element, or [k]. *)
Lemma concat_cons_tail (x : string) (l : list string) (k : string) :
  String.concat "," (x :: l) +:+ k
  = x +:+ match l with
          | [] => k
          | _ => "," +:+ String.concat "," l +:+ k
          end.
Proof.
  destruct l as [|y l]; [reflexivity|].
  change (String.concat "," (x :: y :: l)) with (x +:+ "," +:+ String.concat "," (y :: l)).
  now rewrite !string_app_assoc.
Qed.

Lemma retouchTxs_cons (v : Z) (held : nat -> bool) (t : Transactions.t)
    (ts : list Transactions.t) :
  Main.retouchTxs v held (t :: ts)
  = (if held 0%nat then Transactions.set_amount v t else t)
      :: Main.retouchTxs v (held ∘ S) ts.
Proof. reflexivity. Qed.

(** If the text is unchanged, no amount was changed. *)
Lemma concat_retouch_inj (v : Z) (tx0 : Transactions.t) (txs : list Transactions.t)
    (held : nat -> bool) (k : string) :
  v <> Transactions.amount tx0 ->
  (forall j t, held j = true -> txs !! j = Some t -> t = tx0) ->
  String.concat "," (map Transactions.toJSON (Main.retouchTxs v held txs)) +:+ k
  = String.concat "," (map Transactions.toJSON txs) +:+ k ->
  Main.retouchTxs v held txs = txs.
Proof.
  intros Hv. revert held. induction txs as [|t ts IH]; intros held Hheld E; [reflexivity|].
  rewrite retouchTxs_cons in *. cbn [map] in E. rewrite !concat_cons_tail in E.
  destruct (held 0%nat) eqn:H0.
  - exfalso. assert (t = tx0) as -> by (now apply (Hheld 0%nat)).
    rewrite !toJSON_split in E.
    change (jsonBeforeAmount (Transactions.set_amount v tx0)) with (jsonBeforeAmount tx0) in E.
    change (jsonAfterAmount (Transactions.set_amount v tx0)) with (jsonAfterAmount tx0) in E.
    rewrite !string_app_assoc in E. apply string_app_inv_head in E.
    destruct (jsonAfterAmount_closes tx0) as (c & r & Ha & Hc). rewrite Ha in E.
    change (String c r +:+ ?x) with (String c (r +:+ x)) in E.
    apply plain_split in E; auto using plain_pretty_Z.
    apply (inj pretty) in E. contradiction.
  - apply string_app_inv_head in E. f_equal.
    assert (forall j t', (held ∘ S) j = true -> ts !! j = Some t' -> t' = tx0) as Hheld'.
    { intros j t' Hj Ht. now apply (Hheld (S j)). }
    destruct ts as [|t1 ts]; [reflexivity|].
    rewrite retouchTxs_cons in E. cbn [map] in E.
    apply string_app_inv_head in E.
    apply (IH _ Hheld'). rewrite retouchTxs_cons. exact E.
Qed.

(** ** Proof of work *)

Section BlockFacts.
Context {crypto : Crypto}.

Lemma afterNonces_fields (k : nat) (b : Block.t) :
  Block.timestamp (afterNonces k b) = Block.timestamp b
  /\ Block.transactions (afterNonces k b) = Block.transactions b
  /\ Block.previousHash (afterNonces k b) = Block.previousHash b
  /\ Block.nonce (afterNonces k b) = Block.nonce b + Z.of_nat k.
Proof.
  induction k as [|k IH].
  - cbn. repeat split; lia.
  - destruct IH as (Ht & Hx & Hp & Hn).
    change (afterNonces (S k) b) with (Block.nextNonce (afterNonces k b)).
    unfold Block.nextNonce. simpl. rewrite Ht, Hx, Hp, Hn. repeat split; lia.
Qed.

Lemma afterNonces_hash (k : nat) (b : Block.t) :
  Block.hash (afterNonces (S k) b)
  = SHA256 (Block.preimage (Block.previousHash b) (Block.timestamp b)
              (Block.transactions b) (pretty (Block.nonce b + Z.of_nat (S k)))).
Proof.
  destruct (afterNonces_fields k b) as (Ht & Hx & Hp & Hn).
  change (afterNonces (S k) b) with (Block.nextNonce (afterNonces k b)).
  unfold Block.nextNonce, Block.calculateHash, Block.text. simpl.
  rewrite Ht, Hx, Hp, Hn. do 3 f_equal. lia.
Qed.

Lemma afterNonces_consistent (k : nat) (b : Block.t) :
  Block.hash (afterNonces (S k) b) = Block.calculateHash (afterNonces (S k) b).
Proof. reflexivity. Qed.

(** What a finished loop returns: the first block in the sequence of
    attempts whose hash starts with the target. *)
Lemma mineBlock_Some (fuel difficulty : nat) (b b' : Block.t) :
  Block.mineBlock fuel difficulty b = Some b' ->
  exists k, (k <= fuel)%nat /\ b' = afterNonces k b
    /\ Block.sealed difficulty (Block.hash b') = true
    /\ forall j, (j < k)%nat -> Block.sealed difficulty (Block.hash (afterNonces j b)) = false.
Proof.
  revert b. induction fuel as [|fuel IH]; intros b H; simpl in H.
  - destruct (Block.sealed difficulty (Block.hash b)) eqn:E; [|discriminate].
    injection H as <-. exists 0%nat. repeat split; [lia | assumption | lia].
  - destruct (Block.sealed difficulty (Block.hash b)) eqn:E.
    + injection H as <-. exists 0%nat. repeat split; [lia | assumption | lia].
    + destruct (IH _ H) as (k & Hk & -> & Hs & Hlt).
      exists (S k). unfold afterNonces in *. rewrite Nat.iter_succ_r.
      repeat split; [lia | assumption |].
      intros [|j] Hj; [assumption|]. rewrite Nat.iter_succ_r. apply Hlt. lia.
Qed.

(** The loop finishes as soon as one attempt meets the target. *)
Lemma mineBlock_enough (k fuel difficulty : nat) (b : Block.t) :
  Block.sealed difficulty (Block.hash (afterNonces k b)) = true ->
  (k <= fuel)%nat ->
  is_Some (Block.mineBlock fuel difficulty b).
Proof.
  revert b fuel. induction k as [|k IH]; intros b fuel Hs Hk.
  - destruct fuel; simpl in *; rewrite Hs; eauto.
  - destruct fuel as [|fuel]; [lia|]. simpl.
    destruct (Block.sealed difficulty (Block.hash b)); [eauto|].
    apply IH; [|lia]. unfold afterNonces in *. now rewrite <- Nat.iter_succ_r.
Qed.

Lemma mineBlock_fuel_irrelevant (fuel1 fuel2 difficulty : nat) (b b1 b2 : Block.t) :
  Block.mineBlock fuel1 difficulty b = Some b1 ->
  Block.mineBlock fuel2 difficulty b = Some b2 ->
  b1 = b2.
Proof.
  intros H1 H2.
  apply mineBlock_Some in H1 as (k1 & _ & -> & Hs1 & Hlt1).
  apply mineBlock_Some in H2 as (k2 & _ & -> & Hs2 & Hlt2).
  destruct (Nat.lt_trichotomy k1 k2) as [Hlt | [-> | Hlt]]; [|reflexivity|].
  - rewrite (Hlt2 _ Hlt) in Hs1. discriminate.
  - rewrite (Hlt1 _ Hlt) in Hs2. discriminate.
Qed.

(** The target is [difficulty] zeros, and a sealed hash starts with them. *)
Lemma target_zeros (difficulty : nat) :
  Block.target difficulty = string_of_list_ascii (repeat "0"%char difficulty).
Proof.
  unfold Block.target. rewrite Nat.add_1_r.
  induction difficulty as [|d IH]; [reflexivity|].
  change (repeat "" (S (S d))) with ("" :: repeat "" (S d)).
  cbn [String.concat]. change (repeat "" (S d)) with ("" :: repeat "" d) at 1.
  cbv beta iota. rewrite IH. reflexivity.
Qed.

Lemma sealed_zeros (difficulty : nat) (h : string) :
  Block.sealed difficulty h = true
  <-> substring 0 difficulty h = string_of_list_ascii (repeat "0"%char difficulty).
Proof. unfold Block.sealed. rewrite String.eqb_eq, target_zeros. reflexivity. Qed.

End BlockFacts.

(** ** Transactions and blocks *)

Section ValidityFacts.
Context {crypto : Crypto}.

Lemma isValid_reward (tx : Transactions.t) :
  Transactions.fromAddress tx = None -> Transactions.isValid tx = Return true.
Proof. unfold Transactions.isValid. now intros ->. Qed.

Lemma isValid_unsigned (tx : Transactions.t) :
  unsigned tx -> Transactions.isValid tx = Throw (Error "No signature in this transaction").
Proof.
  unfold unsigned, Transactions.isValid. intros [Hf Hs].
  destruct (Transactions.fromAddress tx); [|congruence].
  now destruct Hs as [-> | ->].
Qed.

Lemma isValid_amount_total (v : Z) (tx : Transactions.t) (r : bool) :
  Transactions.isValid tx = Return r ->
  exists r', Transactions.isValid (Transactions.set_amount v tx) = Return r'.
Proof.
  unfold Transactions.isValid. simpl.
  destruct (Transactions.fromAddress tx); [|eauto].
  destruct (Transactions.signature tx) as [sig|]; [|discriminate].
  destruct (String.length sig =? 0)%nat; [discriminate | eauto].
Qed.

Lemma allValid_app_true (pre post : list Transactions.t) :
  Forall (fun tx => Transactions.isValid tx = Return true) pre ->
  Block.allValid (pre ++ post) = Block.allValid post.
Proof. induction 1 as [|tx pre Htx _ IH]; simpl; [reflexivity | now rewrite Htx]. Qed.

Lemma allValid_true (txs : list Transactions.t) :
  Block.allValid txs = Return true
  <-> Forall (fun tx => Transactions.isValid tx = Return true) txs.
Proof.
  split.
  - induction txs as [|tx txs IH]; simpl; intros H; [constructor|].
    destruct (Transactions.isValid tx) as [[|]|] eqn:E; simpl in H; try discriminate.
    constructor; auto.
  - intros H. rewrite <- (app_nil_r txs), allValid_app_true by assumption. reflexivity.
Qed.

(** With every transaction returning from [isValid], the scan returns. *)
Lemma allValid_total (txs : list Transactions.t) :
  Forall (fun tx => exists r, Transactions.isValid tx = Return r) txs ->
  exists r, Block.allValid txs = Return r.
Proof.
  induction 1 as [|tx txs [r Hr] _ [r' IH]]; simpl; [eauto|].
  rewrite Hr. simpl. destruct r; simpl; eauto.
Qed.

End ValidityFacts.

(** ** The ledger *)

Section LedgerFacts.
Context {crypto : Crypto}.

Lemma isChainValidFrom_passes (prev cur : Block.t) (rest : list Block.t) :
  passes prev cur ->
  Blockchain.isChainValidFrom prev (cur :: rest) = Blockchain.isChainValidFrom cur rest.
Proof.
  intros (Hv & Hh & Hp). simpl. rewrite Hv. simpl.
  rewrite <- Hh, <- Hp, !String.eqb_refl. reflexivity.
Qed.

Lemma isChainValidFrom_true_inv (prev cur : Block.t) (rest : list Block.t) :
  Blockchain.isChainValidFrom prev (cur :: rest) = Return true ->
  passes prev cur /\ Blockchain.isChainValidFrom cur rest = Return true.
Proof.
  simpl. unfold passes.
  destruct (Block.hasValidTransactions cur) as [[|]|]; simpl; try discriminate.
  destruct (String.eqb_spec (Block.hash cur) (Block.calculateHash cur));
    simpl; try discriminate.
  destruct (String.eqb_spec (Block.previousHash cur) (Block.hash prev));
    simpl; try discriminate.
  auto.
Qed.

Lemma last_cons_default {A : Type} (x d : A) (l : list A) :
  List.last (x :: l) d = List.last l x.
Proof.
  revert x d. induction l as [|y l IH]; intros x d; [reflexivity|].
  change (List.last (x :: y :: l) d) with (List.last (y :: l) d).
  now rewrite (IH y d), (IH y x).
Qed.

(** The loop skips a prefix of blocks that pass. *)
Lemma isChainValidFrom_app (prev : Block.t) (good rest : list Block.t) :
  Blockchain.isChainValidFrom prev good = Return true ->
  Blockchain.isChainValidFrom prev (good ++ rest)
  = Blockchain.isChainValidFrom (List.last good prev) rest.
Proof.
  revert prev. induction good as [|cur good IH]; intros prev H; [reflexivity|].
  apply isChainValidFrom_true_inv in H as [Hp H].
  change ((cur :: good) ++ rest) with (cur :: (good ++ rest)).
  rewrite (isChainValidFrom_passes _ _ _ Hp), (IH _ H).
  now rewrite last_cons_default.
Qed.

Lemma isChainValidFrom_app_inv (prev : Block.t) (good rest : list Block.t) :
  Blockchain.isChainValidFrom prev (good ++ rest) = Return true ->
  Blockchain.isChainValidFrom prev good = Return true.
Proof.
  revert prev. induction good as [|cur good IH]; intros prev H; [reflexivity|].
  change ((cur :: good) ++ rest) with (cur :: (good ++ rest)) in H.
  apply isChainValidFrom_true_inv in H as [Hp H].
  rewrite (isChainValidFrom_passes _ _ _ Hp). eauto.
Qed.

(** What [minePendingTransaction] returns when the loop finishes. *)
Lemma minePendingTransaction_Some (fuel : nat) (now : Z) (miner : address)
    (bc bc' : Blockchain.t) :
  Blockchain.minePendingTransaction fuel now miner bc = Some bc' ->
  exists mined k,
    mined = afterNonces k
              (Block.new now (Block.TxArray (Blockchain.pendingTransactions bc)) "")
    /\ Block.sealed (Blockchain.difficulty bc) (Block.hash mined) = true
    /\ bc' = Blockchain.Build (Blockchain.chain bc ++ [mined]) (Blockchain.difficulty bc)
               [Transactions.new None miner (Blockchain.mimingReward bc)]
               (Blockchain.mimingReward bc).
Proof.
  unfold Blockchain.minePendingTransaction. intros H.
  destruct (Block.mineBlock _ _ _) as [mined|] eqn:E; [|discriminate].
  injection H as <-.
  apply mineBlock_Some in E as (k & _ & -> & Hs & _). eauto.
Qed.

(** The loop of [minePendingTransaction] finishes when some nonce gives a
    digest that starts with the target. *)
Lemma minePendingTransaction_enough (now : Z) (miner : address) (bc : Blockchain.t) (n : Z) :
  1 <= n ->
  Block.sealed (Blockchain.difficulty bc)
    (SHA256 (Block.preimage "" now (Block.TxArray (Blockchain.pendingTransactions bc))
               (pretty n))) = true ->
  forall fuel, (Z.to_nat n <= fuel)%nat ->
    is_Some (Blockchain.minePendingTransaction fuel now miner bc).
Proof.
  intros Hn Hs fuel Hfuel. unfold Blockchain.minePendingTransaction.
  destruct (mineBlock_enough (Z.to_nat n) fuel (Blockchain.difficulty bc)
              (Block.new now (Block.TxArray (Blockchain.pendingTransactions bc)) ""))
    as [mined ->]; [|assumption|simpl; eauto].
  destruct (Z.to_nat n) as [|k] eqn:E; [lia|].
  rewrite afterNonces_hash. simpl.
  replace (0 + Z.of_nat (S k)) with n by lia. assumption.
Qed.

(** *** How one block makes [isChainValid] stop *)

Lemma hasValidTransactions_first_unsigned (b : Block.t) (pre post : list Transactions.t)
    (tx : Transactions.t) :
  Block.transactions b = Block.TxArray (pre ++ tx :: post) ->
  Forall validTx pre ->
  unsigned tx ->
  Block.hasValidTransactions b = Throw (Error "No signature in this transaction").
Proof.
  intros Hb Hpre Htx. unfold Block.hasValidTransactions. rewrite Hb.
  rewrite allValid_app_true by assumption. simpl.
  now rewrite isValid_unsigned.
Qed.

Lemma hasValidTransactions_first_failed (b : Block.t) (pre post : list Transactions.t)
    (tx : Transactions.t) :
  Block.transactions b = Block.TxArray (pre ++ tx :: post) ->
  Forall validTx pre ->
  Transactions.isValid tx = Return false ->
  Block.hasValidTransactions b = Return false.
Proof.
  intros Hb Hpre Htx. unfold Block.hasValidTransactions. rewrite Hb.
  rewrite allValid_app_true by assumption. simpl. now rewrite Htx.
Qed.

Lemma isChainValidFrom_throw (prev cur : Block.t) (rest : list Block.t) (e : exn) :
  Block.hasValidTransactions cur = Throw e ->
  Blockchain.isChainValidFrom prev (cur :: rest) = Throw e.
Proof. intros H. simpl. now rewrite H. Qed.

Lemma isChainValidFrom_invalid (prev cur : Block.t) (rest : list Block.t) :
  Block.hasValidTransactions cur = Return false ->
  Blockchain.isChainValidFrom prev (cur :: rest) = Return false.
Proof. intros H. simpl. now rewrite H. Qed.

Lemma isChainValidFrom_hash_mismatch (prev cur : Block.t) (rest : list Block.t) :
  Block.hasValidTransactions cur = Return true ->
  Block.hash cur <> Block.calculateHash cur ->
  Blockchain.isChainValidFrom prev (cur :: rest) = Return false.
Proof.
  intros H Hh. simpl. rewrite H. simpl.
  apply String.eqb_neq in Hh. now rewrite Hh.
Qed.

Lemma isChainValidFrom_link_mismatch (prev cur : Block.t) (rest : list Block.t) :
  Block.hasValidTransactions cur = Return true ->
  Block.previousHash cur <> Block.hash prev ->
  Blockchain.isChainValidFrom prev (cur :: rest) = Return false.
Proof.
  intros H Hp. simpl. rewrite H. simpl.
  apply String.eqb_neq in Hp. rewrite Hp.
  now destruct (String.eqb (Block.hash cur) (Block.calculateHash cur)).
Qed.

(** The loop reaches [cur] when the blocks before it pass. *)
Lemma isChainValid_reaches (bc : Blockchain.t) (genesis cur : Block.t)
    (good rest : list Block.t) :
  Blockchain.chain bc = genesis :: good ++ cur :: rest ->
  Blockchain.isChainValidFrom genesis good = Return true ->
  Blockchain.isChainValid bc
  = Blockchain.isChainValidFrom (List.last good genesis) (cur :: rest).
Proof.
  intros Hc Hg. unfold Blockchain.isChainValid. rewrite Hc.
  now apply isChainValidFrom_app.
Qed.

(** *** Ledgers built by the methods *)

Lemma ledgerInv_new : ledgerInv Blockchain.new.
Proof. exists []. repeat split; constructor. Qed.

Lemma ledgerInv_addTransaction (tx : Transactions.t) (bc : Blockchain.t) :
  ledgerInv bc -> ledgerInv (Blockchain.addTransaction tx bc).1.
Proof.
  intros (rest & Hc & Hr & Hp). unfold Blockchain.addTransaction, ledgerInv.
  destruct (falsy _ || falsy _); simpl; [eauto|].
  destruct (Transactions.isValid tx) as [[|]|] eqn:E; simpl; eauto.
  exists rest. repeat split; [assumption..|].
  apply Forall_app. split; [assumption|]. now constructor.
Qed.

Lemma ledgerInv_minePendingTransaction (fuel : nat) (now : Z) (miner : address)
    (bc bc' : Blockchain.t) :
  ledgerInv bc ->
  Blockchain.minePendingTransaction fuel now miner bc = Some bc' ->
  ledgerInv bc'.
Proof.
  intros (rest & Hc & Hr & Hp) H.
  apply minePendingTransaction_Some in H as (mined & k & -> & _ & ->).
  destruct (afterNonces_fields k
              (Block.new now (Block.TxArray (Blockchain.pendingTransactions bc)) ""))
    as (_ & Hx & Hprev & _).
  exists (rest ++ [afterNonces k
              (Block.new now (Block.TxArray (Blockchain.pendingTransactions bc)) "")]).
  simpl. rewrite Hc. repeat split.
  - apply Forall_app. split; [assumption|]. constructor; [|constructor].
    split; [exact Hprev|]. rewrite Hx. eauto.
  - constructor; [|constructor]. now apply isValid_reward.
Qed.

Lemma reachable_ledgerInv (bc : Blockchain.t) : reachable bc -> ledgerInv bc.
Proof.
  unfold reachable. revert bc. apply rtc_ind_r; [apply ledgerInv_new|].
  intros bc1 bc2 _ Hstep IH.
  destruct Hstep; eauto using ledgerInv_addTransaction, ledgerInv_minePendingTransaction.
Qed.

(** A block appended by [minePendingTransaction] right after the genesis
    block fails the third check: its [previousHash] is empty. *)
Lemma isChainValidFrom_genesis_mined (b : Block.t) (rest : list Block.t) :
  (forall s, SHA256 s <> "") ->
  minedBlock b ->
  Blockchain.isChainValidFrom Blockchain.createGenesisBlock (b :: rest) = Return false.
Proof.
  intros Hne (Hprev & txs & Hx & Hv).
  apply isChainValidFrom_link_mismatch.
  - unfold Block.hasValidTransactions. rewrite Hx. now apply allValid_true.
  - rewrite Hprev. intros E. symmetry in E. revert E. apply Hne.
Qed.

End LedgerFacts.

(** ** Tampering with a mined amount *)

Section TamperFacts.
Context {crypto : Crypto}.

(** The block [b] with the amount of its transaction [j] set to [v]. *)
Lemma tamperAmount_Some (i j : nat) (v : Z) (bc : Blockchain.t) (b : Block.t)
    (txs : list Transactions.t) (tx : Transactions.t) :
  Blockchain.chain bc !! i = Some b ->
  Block.transactions b = Block.TxArray txs ->
  txs !! j = Some tx ->
  Main.tamperAmount i j v bc
  = Some (Blockchain.set_chain
            (<[i := Block.set_transactions
                      (Block.TxArray (<[j := Transactions.set_amount v tx]> txs)) b]>
               (Blockchain.chain bc)) bc).
Proof.
  intros Hb Hx Hj. unfold Main.tamperAmount. rewrite Hb. simpl.
  rewrite Hx, Hj. reflexivity.
Qed.

(** After the change every transaction of the block still returns from
    [isValid], so [hasValidTransactions] returns a boolean. *)
Lemma hasValidTransactions_tampered (b : Block.t) (txs : list Transactions.t)
    (j : nat) (tx : Transactions.t) (v : Z) :
  Block.transactions b = Block.TxArray txs ->
  Block.hasValidTransactions b = Return true ->
  txs !! j = Some tx ->
  exists r,
    Block.hasValidTransactions
      (Block.set_transactions
         (Block.TxArray (<[j := Transactions.set_amount v tx]> txs)) b) = Return r.
Proof.
  intros Hx Hv Hj. unfold Block.hasValidTransactions in *. rewrite Hx in Hv. simpl.
  apply allValid_true in Hv. apply allValid_total.
  apply Forall_insert.
  - eapply Forall_impl; [exact Hv|]. intros t Ht. exists true. exact Ht.
  - rewrite Forall_forall in Hv.
    apply isValid_amount_total with (r := true). apply Hv.
    eapply list_elem_of_lookup_2. exact Hj.
Qed.

(** A block that passed stops the loop with [false] once one of its
    amounts is changed, unless the two block texts collide under SHA256. *)
Lemma isChainValidFrom_tampered (prev b : Block.t) (rest : list Block.t)
    (txs : list Transactions.t) (j : nat) (tx : Transactions.t) (v : Z) :
  passes prev b ->
  Block.transactions b = Block.TxArray txs ->
  txs !! j = Some tx ->
  v <> Transactions.amount tx ->
  noCollision
    (Block.text (Block.set_transactions
                   (Block.TxArray (<[j := Transactions.set_amount v tx]> txs)) b))
    (Block.text b) ->
  Blockchain.isChainValidFrom prev
    (Block.set_transactions
       (Block.TxArray (<[j := Transactions.set_amount v tx]> txs)) b :: rest)
  = Return false.
Proof.
  intros (Hv & Hh & _) Hx Hj Hne Hcol.
  destruct (hasValidTransactions_tampered b txs j tx v Hx Hv Hj) as [[|] Hr].
  - apply isChainValidFrom_hash_mismatch; [exact Hr|].
    unfold Block.calculateHash in *. simpl. rewrite Hh. intros E.
    symmetry in E. apply Hcol in E. unfold Block.text in E. simpl in E.
    rewrite Hx in E. apply block_preimage_amount_inj in E; [contradiction | exact Hj].
  - now apply isChainValidFrom_invalid.
Qed.

Lemma tampered_chain_is_rejected (bc : Blockchain.t) (i j : nat) (b : Block.t)
    (txs : list Transactions.t) (tx : Transactions.t) (v : Z) :
  Blockchain.isChainValid bc = Return true ->
  (1 <= i)%nat ->
  Blockchain.chain bc !! i = Some b ->
  Block.transactions b = Block.TxArray txs ->
  txs !! j = Some tx ->
  v <> Transactions.amount tx ->
  noCollision
    (Block.text (Block.set_transactions
                   (Block.TxArray (<[j := Transactions.set_amount v tx]> txs)) b))
    (Block.text b) ->
  exists bc', Main.tamperAmount i j v bc = Some bc'
    /\ Blockchain.isChainValid bc' = Return false.
Proof.
  intros Hvalid Hi Hb Hx Hj Hne Hcol.
  rewrite (tamperAmount_Some i j v bc b txs tx Hb Hx Hj). eexists. split; [reflexivity|].
  unfold Blockchain.isChainValid in *. simpl.
  destruct (Blockchain.chain bc) as [|g c]; [discriminate|].
  destruct i as [|i]; [lia|]. simpl in Hb. simpl.
  pose proof (lookup_lt_Some _ _ _ Hb) as Hlt.
  rewrite (insert_take_drop c i) by exact Hlt.
  rewrite <- (take_drop_middle c i b Hb) in Hvalid.
  pose proof (isChainValidFrom_app_inv _ _ _ Hvalid) as Hgood.
  rewrite (isChainValidFrom_app _ _ _ Hgood) in Hvalid.
  rewrite (isChainValidFrom_app _ _ _ Hgood).
  apply isChainValidFrom_true_inv in Hvalid as [Hpass _].
  now apply isChainValidFrom_tampered.
Qed.

(** *** A record held at several places *)

Lemma text_retouch_inj (v : Z) (tx0 : Transactions.t) (held : nat -> bool) (b : Block.t) :
  v <> Transactions.amount tx0 ->
  (forall txs j t, Block.transactions b = Block.TxArray txs ->
     held j = true -> txs !! j = Some t -> t = tx0) ->
  Block.text (Main.retouchBlock v held b) = Block.text b ->
  Main.retouchBlock v held b = b.
Proof.
  intros Hv Hheld. unfold Main.retouchBlock.
  destruct (Block.transactions b) as [txs|s] eqn:Hx; [|reflexivity].
  unfold Block.text, Block.preimage. simpl. rewrite Hx. simpl. unfold Block.jsonArray.
  intros E. do 3 apply string_app_inv_head in E.
  rewrite !string_app_assoc in E. apply string_app_inv_head in E.
  apply concat_retouch_inj with (tx0 := tx0) in E;
    [|assumption|intros j t; now apply (Hheld txs j t)].
  rewrite E. destruct b. simpl in *. now subst.
Qed.

Lemma hasValidTransactions_retouch (v : Z) (held : nat -> bool) (b : Block.t) :
  Block.hasValidTransactions b = Return true ->
  exists r, Block.hasValidTransactions (Main.retouchBlock v held b) = Return r.
Proof.
  unfold Main.retouchBlock, Block.hasValidTransactions.
  destruct (Block.transactions b) as [txs|s] eqn:Hx; simpl; [|rewrite Hx; eauto].
  intros Hv. apply allValid_true in Hv. apply allValid_total.
  apply Forall_lookup. intros j t Hj.
  apply list_lookup_imap_Some in Hj as (t0 & Ht0 & ->).
  rewrite Forall_lookup in Hv. specialize (Hv j t0 Ht0).
  destruct (held j); [now apply isValid_amount_total with (r := true) | eauto].
Qed.

(** Down the chain: the loop returns [false] at the first block whose
    text changed, and goes on as before over blocks that did not. *)
Lemma isChainValidFrom_retouch (v : Z) (tx0 : Transactions.t) (rest : list Block.t) :
  v <> Transactions.amount tx0 ->
  forall (held : nat -> nat -> bool) (prev prev' : Block.t),
    (forall k b txs j t, rest !! k = Some b -> Block.transactions b = Block.TxArray txs ->
       held k j = true -> txs !! j = Some t -> t = tx0) ->
    (forall k b, rest !! k = Some b ->
       noCollision (Block.text (Main.retouchBlock v (held k) b)) (Block.text b)) ->
    Block.hash prev' = Block.hash prev ->
    Blockchain.isChainValidFrom prev rest = Return true ->
    Blockchain.isChainValidFrom prev' (imap (fun k => Main.retouchBlock v (held k)) rest)
      = Return false
    \/ imap (fun k => Main.retouchBlock v (held k)) rest = rest.
Proof.
  intros Hv. induction rest as [|b rest IH]; intros held prev prev' Hheld Hcol Hprev Hvalid;
    [right; reflexivity|].
  apply isChainValidFrom_true_inv in Hvalid as [(Hvb & Hh & Hp) Hvalid].
  rewrite imap_cons.
  destruct (hasValidTransactions_retouch v (held 0%nat) b Hvb) as [[|] Hr];
    [|left; now apply isChainValidFrom_invalid].
  assert (Block.hash (Main.retouchBlock v (held 0%nat) b) = Block.hash b) as Hh'.
  { unfold Main.retouchBlock. now destruct (Block.transactions b). }
  destruct (decide (Block.hash b
                    = Block.calculateHash (Main.retouchBlock v (held 0%nat) b)))
    as [E|E].
  - rewrite Hh in E. unfold Block.calculateHash in E. symmetry in E.
    apply (Hcol 0%nat b eq_refl) in E.
    apply text_retouch_inj with (tx0 := tx0) in E;
      [|assumption|intros txs j t; now apply (Hheld 0%nat b)].
    rewrite E.
    assert (passes prev' b) as Hpass by (repeat split; congruence).
    rewrite (isChainValidFrom_passes _ _ _ Hpass).
    destruct (IH (held ∘ S) b b) as [Hf|He]; try assumption; try reflexivity.
    + intros k b0 txs j t Hk. now apply (Hheld (S k)).
    + intros k b0 Hk. now apply (Hcol (S k)).
    + left. exact Hf.
    + right. f_equal. exact He.
  - left. apply isChainValidFrom_hash_mismatch; [exact Hr|]. now rewrite Hh'.
Qed.

(** Changing the amount of a record that several places of the chain hold:
    every such place shows the new amount, and [isChainValid] returns
    [false] as soon as one of them is in a block other than the first. *)
Lemma shared_record_tamper_is_rejected (bc : Blockchain.t) (held : nat -> nat -> bool)
    (i j : nat) (b : Block.t) (txs : list Transactions.t) (tx : Transactions.t) (v : Z) :
  Blockchain.isChainValid bc = Return true ->
  (forall i' b' txs' j' t, Blockchain.chain bc !! i' = Some b' ->
     Block.transactions b' = Block.TxArray txs' ->
     held i' j' = true -> txs' !! j' = Some t -> t = tx) ->
  (1 <= i)%nat ->
  Blockchain.chain bc !! i = Some b ->
  Block.transactions b = Block.TxArray txs ->
  txs !! j = Some tx ->
  held i j = true ->
  v <> Transactions.amount tx ->
  (forall k b', Blockchain.chain bc !! k = Some b' ->
     noCollision (Block.text (Main.retouchBlock v (held k) b')) (Block.text b')) ->
  Blockchain.isChainValid (Main.assignShared v held bc) = Return false.
Proof.
  intros Hvalid Hheld Hi Hb Hx Hj Hij Hv Hcol.
  unfold Blockchain.isChainValid, Main.assignShared in *. simpl.
  destruct (Blockchain.chain bc) as [|g rest]; [discriminate|].
  rewrite imap_cons.
  destruct i as [|i]; [lia|]. simpl in Hb.
  destruct (isChainValidFrom_retouch v tx rest Hv (held ∘ S) g
              (Main.retouchBlock v (held 0%nat) g))
    as [Hf|He]; try assumption.
  - intros k b0 txs0 j0 t Hk. now apply (Hheld (S k)).
  - intros k b0 Hk. now apply (Hcol (S k)).
  - unfold Main.retouchBlock. now destruct (Block.transactions g).
  - exfalso. apply (f_equal (fun l => l !! i)) in He.
    rewrite list_lookup_imap, Hb in He. simpl in He. injection He as He.
    unfold Main.retouchBlock in He. rewrite Hx in He.
    apply (f_equal Block.transactions) in He. simpl in He. rewrite Hx in He.
    injection He as He. apply (f_equal (fun l => l !! j)) in He.
    unfold Main.retouchTxs in He. rewrite list_lookup_imap, Hj in He. simpl in He.
    rewrite Hij in He. injection He as He.
    apply (f_equal Transactions.amount) in He. simpl in He. contradiction.
Qed.

End TamperFacts.

(** ** The driver script *)

Section ScenarioFacts.
Context {crypto : Crypto}.
Variables (myKey : KeyPair) (recipient : string).

Lemma tx1_fields :
  Main.tx1 myKey recipient
  = Transactions.Build (Some (getPublic myKey)) (Some recipient) 10
      (Some (signDER myKey
               (SHA256 (getPublic myKey +:+ recipient +:+ "10")))).
Proof.
  unfold Main.tx1, Transactions.signTransaction. simpl.
  rewrite bool_decide_eq_false_2 by (intros F; now apply F). reflexivity.
Qed.

Lemma mined_unfold (fuel : nat) (now : Z) :
  Main.mined fuel now myKey recipient
  = Blockchain.minePendingTransaction fuel now (Some (getPublic myKey))
      (Blockchain.addTransaction (Main.tx1 myKey recipient) Blockchain.new).1.
Proof. reflexivity. Qed.

(** A provider whose signatures are not empty and verify makes [tx1] valid. *)
Lemma tx1_valid :
  (forall k h, signDER k h <> "") ->
  (forall k h, verify (getPublic k) h (signDER k h) = true) ->
  validTx (Main.tx1 myKey recipient).
Proof.
  intros Hne Hver. rewrite tx1_fields. unfold validTx, Transactions.isValid. simpl.
  destruct (signDER myKey _) as [|c sig] eqn:E; [now apply Hne in E|].
  simpl. rewrite <- E. unfold Transactions.calculateHash, Transactions.preimage. simpl.
  now rewrite Hver.
Qed.

Lemma addTransaction_tx1 :
  getPublic myKey <> "" ->
  recipient <> "" ->
  validTx (Main.tx1 myKey recipient) ->
  Blockchain.addTransaction (Main.tx1 myKey recipient) Blockchain.new
  = (Blockchain.Build [Blockchain.createGenesisBlock] 2 [Main.tx1 myKey recipient] 100,
     Return ()).
Proof.
  intros Hpk Hr Hv. unfold Blockchain.addTransaction. rewrite Hv.
  rewrite tx1_fields at 1 2. simpl.
  apply String.eqb_neq in Hpk, Hr. rewrite Hpk, Hr. reflexivity.
Qed.

(** The ledger of the script after mining, when the loop finishes. *)
Lemma mined_Some (fuel : nat) (now : Z) (bc : Blockchain.t) :
  getPublic myKey <> "" ->
  recipient <> "" ->
  validTx (Main.tx1 myKey recipient) ->
  Main.mined fuel now myKey recipient = Some bc ->
  exists block,
    bc = Blockchain.Build [Blockchain.createGenesisBlock; block] 2
           [Transactions.new None (Some (getPublic myKey)) 100] 100
    /\ Block.transactions block = Block.TxArray [Main.tx1 myKey recipient]
    /\ Block.previousHash block = "".
Proof.
  intros Hpk Hr Hv. unfold Main.mined. rewrite addTransaction_tx1 by assumption.
  intros H. apply minePendingTransaction_Some in H as (block & k & -> & _ & ->).
  eexists. split; [reflexivity|].
  destruct (afterNonces_fields k (Block.new now (Block.TxArray [Main.tx1 myKey recipient]) ""))
    as (_ & Hx & Hp & _).
  split; assumption.
Qed.

Lemma mined_enough (now n : Z) (fuel : nat) :
  getPublic myKey <> "" ->
  recipient <> "" ->
  validTx (Main.tx1 myKey recipient) ->
  1 <= n ->
  Block.sealed 2
    (SHA256 (Block.preimage "" now (Block.TxArray [Main.tx1 myKey recipient]) (pretty n)))
    = true ->
  (Z.to_nat n <= fuel)%nat ->
  is_Some (Main.mined fuel now myKey recipient).
Proof.
  intros Hpk Hr Hv Hn Hs Hfuel. unfold Main.mined.
  rewrite addTransaction_tx1 by assumption.
  now apply minePendingTransaction_enough with (n := n).
Qed.

End ScenarioFacts.

(** ** Facts about the concrete provider *)

Example demo_genesis : @Blockchain.createGenesisBlock Demo.crypto = Demo.genesis.
Proof. vm_compute. reflexivity. Qed.

Example demo_tx1 : @Main.tx1 Demo.crypto Demo.myKey Demo.recipient = Demo.tx1.
Proof. vm_compute. reflexivity. Qed.

Example demo_tx1_valid : @Transactions.isValid Demo.crypto Demo.tx1 = Return true.
Proof. vm_compute. reflexivity. Qed.

(** The script with this provider: the loop of [mineBlock] stops at nonce 197. *)
Example demo_mined :
  @Main.mined Demo.crypto 197 Demo.now Demo.myKey Demo.recipient = Some Demo.minedLedger.
Proof. vm_cast_no_check (eq_refl (Some Demo.minedLedger)). Qed.

Example demo_fresh_mined :
  @Blockchain.minePendingTransaction Demo.crypto 14 Demo.now (Some "miner")
    (@Blockchain.new Demo.crypto) = Some Demo.freshMined.
Proof. vm_compute. reflexivity. Qed.

Example demo_fresh_mined_rejected :
  @Blockchain.isChainValid Demo.crypto Demo.freshMined = Return false.
Proof. vm_compute. reflexivity. Qed.

Example demo_linked_valid : @Blockchain.isChainValid Demo.crypto Demo.linked = Return true.
Proof. vm_compute. reflexivity. Qed.

Example demo_shared_valid : @Blockchain.isChainValid Demo.crypto Demo.shared = Return true.
Proof. vm_compute. reflexivity. Qed.

(** A constructed block's stored hash is not the digest [calculateHash]
    returns for it. *)
Example demo_new_block_hash :
  let b := @Block.new Demo.crypto Demo.now (Block.TxArray []) "" in
  Block.hash b = "3ac3e2fd20401ae328e8ca94322b6ea2823021ecceb0add6f173a572cbbd8186"
  /\ @Block.calculateHash Demo.crypto b
     = "643a99a13dbd4e94532b1b2c76a485349ec77b5378ac17d17a99660f9aa07c0b".
Proof. vm_compute. split; reflexivity. Qed.

(** With this timestamp the hash stored by the constructor already meets
    the target: the loop of [mineBlock] does not run, and the sealed block
    keeps a hash that [calculateHash] does not reproduce. *)
Example demo_sealed_with_constructor_hash :
  let b := @Block.new Demo.crypto 1700000000045 (Block.TxArray [Demo.tx1]) "" in
  @Block.mineBlock Demo.crypto 0 2 b = Some b
  /\ Block.nonce b = 0
  /\ Block.hash b = "006e99acce79f9ebdc41fab0b4005fcfebfd01373f75c6eae5e4de5dd5e89502"
  /\ @Block.calculateHash Demo.crypto b
     = "a01ed3325ba5a62e33b298461ef70f1f6471d45d0a01fb16b48566f06fb4cba2".
Proof. vm_compute. repeat split. Qed.

Lemma demo_digest_nonempty (s : string) : @SHA256 Demo.crypto s <> "".
Proof. intros H. pose proof (sha256_length s) as L. simpl in H. rewrite H in L. discriminate L. Qed.

Lemma demo_public_nonempty (k : @KeyPair Demo.crypto) : @getPublic Demo.crypto k <> "".
Proof. discriminate. Qed.

Lemma demo_signature_verifies (k : @KeyPair Demo.crypto) (h : string) :
  @verify Demo.crypto (@getPublic Demo.crypto k) h (@signDER Demo.crypto k h) = true.
Proof. apply String.eqb_refl. Qed.

(** * Statements of the specification *)

Section Statements.
Context {crypto : Crypto}.

(** C1.  On a ledger built from a fresh one by [addTransaction] and
    [minePendingTransaction] calls, [isChainValid] returns [false] after any
    [minePendingTransaction]: the block at index 1 was built without the
    hash of the genesis block, so the linkage check fails (digests are never
    the empty string). *)
Theorem C1_chain_with_a_mined_block_is_rejected (fuel : nat) (now : Z) (miner : address)
    (bc bc' : Blockchain.t) :
  (forall s, SHA256 s <> "") ->
  reachable bc ->
  Blockchain.minePendingTransaction fuel now miner bc = Some bc' ->
  Blockchain.isChainValid bc' = Return false.
Proof.
  intros Hne Hreach Hmine.
  pose proof (reachable_ledgerInv _ Hreach) as Hinv.
  pose proof (ledgerInv_minePendingTransaction _ _ _ _ _ Hinv Hmine) as (rest & Hc & Hr & _).
  destruct Hinv as (rest0 & Hc0 & _).
  apply minePendingTransaction_Some in Hmine as (mined & k & _ & _ & ->).
  unfold Blockchain.isChainValid. rewrite Hc. simpl in Hc. rewrite Hc0 in Hc.
  destruct rest as [|b rest].
  - apply (f_equal length) in Hc. simpl in Hc. rewrite length_app in Hc. simpl in Hc. lia.
  - apply isChainValidFrom_genesis_mined; [assumption|]. now inversion Hr.
Qed.

(** C2.  When its loop finishes, [minePendingTransaction] appends one block
    as the last element of the chain: it holds the whole pending pool and
    its hash starts with [difficulty] zeros; the pool becomes the single
    reward transaction.  But the block's [previousHash] is the empty string,
    not the hash of the latest block. *)
Theorem C2_mined_block_has_empty_previousHash (fuel : nat) (now : Z) (miner : address)
    (bc bc' : Blockchain.t) :
  Blockchain.minePendingTransaction fuel now miner bc = Some bc' ->
  exists mined,
    Blockchain.chain bc' = Blockchain.chain bc ++ [mined]
    /\ Block.transactions mined = Block.TxArray (Blockchain.pendingTransactions bc)
    /\ Block.timestamp mined = now
    /\ substring 0 (Blockchain.difficulty bc) (Block.hash mined)
       = string_of_list_ascii (repeat "0"%char (Blockchain.difficulty bc))
    /\ Blockchain.pendingTransactions bc'
       = [Transactions.new None miner (Blockchain.mimingReward bc)]
    /\ Block.previousHash mined = ""
    /\ forall latest, Blockchain.getLatestBlock bc = Some latest ->
         Block.hash latest <> "" ->
         Block.previousHash mined <> Block.hash latest.
Proof.
  intros H. apply minePendingTransaction_Some in H as (mined & k & Hm & Hs & ->).
  exists mined. simpl.
  destruct (afterNonces_fields k
              (Block.new now (Block.TxArray (Blockchain.pendingTransactions bc)) ""))
    as (Ht & Hx & Hprev & _).
  rewrite <- Hm in Ht, Hx, Hprev. simpl in Ht, Hx, Hprev.
  apply sealed_zeros in Hs.
  repeat split; try assumption.
  intros latest _ Hne. rewrite Hprev. congruence.
Qed.

(** C3.  On a ledger that [isChainValid] accepts, setting the amount of a
    transaction of a block other than the genesis block to a different value
    makes [isChainValid] return [false], provided the changed block text
    does not collide with the original one under SHA256; this is so when
    the record is held at one place of the chain and when it is held at
    several.  In the script's scenario,
    [chain[1].transactions[0].amount = 1] is followed by
    [isChainValid() == false] (digests are never the empty string). *)
Theorem C3_tampered_amount_is_detected :
  (forall (bc : Blockchain.t) (i j : nat) (b : Block.t) (txs : list Transactions.t)
          (tx : Transactions.t) (v : Z),
     Blockchain.isChainValid bc = Return true ->
     (1 <= i)%nat ->
     Blockchain.chain bc !! i = Some b ->
     Block.transactions b = Block.TxArray txs ->
     txs !! j = Some tx ->
     v <> Transactions.amount tx ->
     noCollision
       (Block.text (Block.set_transactions
                      (Block.TxArray (<[j := Transactions.set_amount v tx]> txs)) b))
       (Block.text b) ->
     exists bc', Main.tamperAmount i j v bc = Some bc'
       /\ Blockchain.isChainValid bc' = Return false)
  /\ (forall (bc : Blockchain.t) (held : nat -> nat -> bool) (i j : nat) (b : Block.t)
             (txs : list Transactions.t) (tx : Transactions.t) (v : Z),
        Blockchain.isChainValid bc = Return true ->
        (forall i' b' txs' j' t, Blockchain.chain bc !! i' = Some b' ->
           Block.transactions b' = Block.TxArray txs' ->
           held i' j' = true -> txs' !! j' = Some t -> t = tx) ->
        (1 <= i)%nat ->
        Blockchain.chain bc !! i = Some b ->
        Block.transactions b = Block.TxArray txs ->
        txs !! j = Some tx ->
        held i j = true ->
        v <> Transactions.amount tx ->
        (forall k b', Blockchain.chain bc !! k = Some b' ->
           noCollision (Block.text (Main.retouchBlock v (held k) b')) (Block.text b')) ->
        Blockchain.isChainValid (Main.assignShared v held bc) = Return false)
  /\ (forall (myKey : KeyPair) (recipient : string) (now n : Z),
        (forall s, SHA256 s <> "") ->
        getPublic myKey <> "" ->
        recipient <> "" ->
        validTx (Main.tx1 myKey recipient) ->
        1 <= n ->
        Block.sealed 2
          (SHA256 (Block.preimage "" now (Block.TxArray [Main.tx1 myKey recipient])
                     (pretty n))) = true ->
        forall fuel, (Z.to_nat n <= fuel)%nat ->
          exists bc, Main.tampered fuel now myKey recipient = Some bc
            /\ Blockchain.isChainValid bc = Return false).
Proof.
  split; [apply tampered_chain_is_rejected|].
  split; [apply shared_record_tamper_is_rejected|].
  intros myKey recipient now n Hne Hpk Hr Hv Hn Hs fuel Hfuel.
  destruct (mined_enough myKey recipient now n fuel) as [bc Hbc]; try assumption.
  unfold Main.tampered. rewrite Hbc. simpl.
  apply mined_Some in Hbc as (block & -> & Hx & Hp); try assumption.
  erewrite tamperAmount_Some; [|reflexivity|exact Hx|reflexivity].
  eexists. split; [reflexivity|].
  unfold Blockchain.isChainValid. simpl.
  assert (Block.hasValidTransactions block = Return true) as Hvb.
  { unfold Block.hasValidTransactions. rewrite Hx. simpl. now rewrite Hv. }
  destruct (hasValidTransactions_tampered block _ 0 (Main.tx1 myKey recipient) 1
              Hx Hvb eq_refl) as [[|] Hr'].
  - simpl in Hr'. rewrite Hr', Hp. simpl.
    destruct (String.eqb _ _); [|reflexivity]. simpl.
    destruct (SHA256 (Block.preimage "GenesisBlock" _ _ _)) eqn:E;
      [now apply Hne in E | reflexivity].
  - simpl in Hr'. now rewrite Hr'.
Qed.

(** C4.  The script's scenario: on a fresh ledger, after
    [addTransaction(tx1)] with [tx1] = (A, B, 10) signed by A's key and
    valid, and [minePendingTransaction(A)] (whose loop finishes within [n]
    iterations when nonce [n] meets the target), the chain has 2 blocks,
    the balance of A is -10 and the balance of B is 10; the reward of 100
    for A is only queued in the pending pool. *)
Theorem C4_scenario_balances (myKey : KeyPair) (recipient : string) (now n : Z) :
  getPublic myKey <> "" ->
  recipient <> "" ->
  recipient <> getPublic myKey ->
  validTx (Main.tx1 myKey recipient) ->
  1 <= n ->
  Block.sealed 2
    (SHA256 (Block.preimage "" now (Block.TxArray [Main.tx1 myKey recipient]) (pretty n)))
    = true ->
  forall fuel, (Z.to_nat n <= fuel)%nat ->
    exists bc,
      Main.mined fuel now myKey recipient = Some bc
      /\ length (Blockchain.chain bc) = 2%nat
      /\ Blockchain.getAddressOfBalance (Some (getPublic myKey)) bc = -10
      /\ Blockchain.getAddressOfBalance (Some recipient) bc = 10
      /\ Blockchain.pendingTransactions bc
         = [Transactions.new None (Some (getPublic myKey)) 100].
Proof.
  intros Hpk Hr Hdiff Hv Hn Hs fuel Hfuel.
  destruct (mined_enough myKey recipient now n fuel) as [bc Hbc]; try assumption.
  exists bc. split; [assumption|].
  apply mined_Some in Hbc as (block & -> & Hx & _); try assumption.
  unfold Blockchain.getAddressOfBalance, Blockchain.balanceBlock. simpl.
  rewrite Hx, tx1_fields. unfold Blockchain.balanceStep. simpl.
  rewrite (bool_decide_eq_true_2 (Some (getPublic myKey) = Some (getPublic myKey))) by reflexivity.
  rewrite (bool_decide_eq_false_2 (Some recipient = Some (getPublic myKey))) by congruence.
  rewrite (bool_decide_eq_false_2 (Some (getPublic myKey) = Some recipient)) by congruence.
  rewrite (bool_decide_eq_true_2 (Some recipient = Some recipient)) by reflexivity.
  repeat split.
Qed.

(** C5.  [addTransaction] rejects every transaction whose
    sender is [null]: the presence check on the two addresses comes first
    and throws, so the pending pool is left as it was and [isValid] is never
    consulted. *)
Theorem C5_null_sender_is_rejected (tx : Transactions.t) (bc : Blockchain.t) :
  Transactions.fromAddress tx = None ->
  Blockchain.addTransaction tx bc
  = (bc, Throw (Error "Transaction must include from and to address")).
Proof. unfold Blockchain.addTransaction. now intros ->. Qed.

(** C6.  Signing with a key whose public key is not the sender address
    throws and leaves the record as it was (a new record stays without
    signature); signing with the sender's key returns and stores the
    signature of the record's hash; the call returns only in that case. *)
Theorem C6_sign_only_own_wallet (signingKey : KeyPair) (tx : Transactions.t) :
  (Some (getPublic signingKey) <> Transactions.fromAddress tx ->
     Transactions.signTransaction signingKey tx
     = (tx, Throw (Error "You cannot sign transactions for other wallets!")))
  /\ (Some (getPublic signingKey) = Transactions.fromAddress tx ->
        Transactions.signTransaction signingKey tx
        = (Transactions.set_signature
             (signDER signingKey (Transactions.calculateHash tx)) tx, Return ()))
  /\ ((Transactions.signTransaction signingKey tx).2 = Return ()
        <-> Some (getPublic signingKey) = Transactions.fromAddress tx)
  /\ (forall (sender recipient : address) (amount : Z),
        Some (getPublic signingKey) <> sender ->
        Transactions.signature
          (Transactions.signTransaction signingKey
             (Transactions.new sender recipient amount)).1 = None).
Proof.
  unfold Transactions.signTransaction. repeat split.
  - intros H. now rewrite bool_decide_eq_true_2.
  - intros H. now rewrite bool_decide_eq_false_2 by (intros F; now apply F).
  - case_bool_decide as E; simpl; [discriminate|]. intros _.
    destruct (decide (Some (getPublic signingKey) = Transactions.fromAddress tx));
      [assumption | contradiction].
  - intros H. now rewrite bool_decide_eq_false_2 by (intros F; now apply F).
  - intros sender recipient amount H. simpl. now rewrite bool_decide_eq_true_2.
Qed.

(** C7.  When the first transaction of a block that does not
    pass [isValid] is one with a sender and no (or an empty) signature,
    [hasValidTransactions] throws, and so does [isChainValid] when its loop
    reaches that block; nothing turns the exception into [false].  When that
    first transaction instead fails signature verification the result is
    [false], as it is for a hash mismatch and for a linkage mismatch. *)
Theorem C7_missing_signature_throws (bc : Blockchain.t) (genesis cur : Block.t)
    (good rest : list Block.t) :
  Blockchain.chain bc = genesis :: good ++ cur :: rest ->
  Blockchain.isChainValidFrom genesis good = Return true ->
  (forall pre tx post,
     Block.transactions cur = Block.TxArray (pre ++ tx :: post) ->
     Forall validTx pre ->
     (unsigned tx ->
        Block.hasValidTransactions cur = Throw (Error "No signature in this transaction")
        /\ Blockchain.isChainValid bc = Throw (Error "No signature in this transaction"))
     /\ (Transactions.isValid tx = Return false ->
           Block.hasValidTransactions cur = Return false
           /\ Blockchain.isChainValid bc = Return false))
  /\ (Block.hasValidTransactions cur = Return true ->
        Block.hash cur <> Block.calculateHash cur ->
        Blockchain.isChainValid bc = Return false)
  /\ (Block.hasValidTransactions cur = Return true ->
        Block.previousHash cur <> Block.hash (List.last good genesis) ->
        Blockchain.isChainValid bc = Return false).
Proof.
  intros Hc Hg. rewrite (isChainValid_reaches _ _ _ _ _ Hc Hg).
  split; [|split].
  - intros pre tx post Hx Hpre. split; intros Htx.
    + pose proof (hasValidTransactions_first_unsigned _ _ _ _ Hx Hpre Htx) as H.
      split; [exact H | now apply isChainValidFrom_throw].
    + pose proof (hasValidTransactions_first_failed _ _ _ _ Hx Hpre Htx) as H.
      split; [exact H | now apply isChainValidFrom_invalid].
  - apply isChainValidFrom_hash_mismatch.
  - apply isChainValidFrom_link_mismatch.
Qed.

(** C8.  The constructor sets [nonce] to 0, but the hash it stores was
    computed before that assignment: it is the digest of the block text
    ending in [undefined], while the digest at nonce 0 (what
    [calculateHash] gives on the constructed block) is that of a different
    text, ending in [0]; the two digests differ unless these texts collide
    under SHA256. *)
Theorem C8_initial_hash_precedes_nonce (timestamp : Z) (transactions : Block.txseq)
    (previousHash : string) :
  let b := Block.new timestamp transactions previousHash in
  Block.nonce b = 0
  /\ Block.hash b = SHA256 (Block.preimage previousHash timestamp transactions "undefined")
  /\ Block.calculateHash b = SHA256 (Block.preimage previousHash timestamp transactions "0")
  /\ Block.preimage previousHash timestamp transactions "undefined"
     <> Block.preimage previousHash timestamp transactions "0"
  /\ (noCollision (Block.preimage previousHash timestamp transactions "undefined")
                  (Block.preimage previousHash timestamp transactions "0") ->
      Block.hash b <> Block.calculateHash b).
Proof.
  assert (Block.preimage previousHash timestamp transactions "undefined"
          <> Block.preimage previousHash timestamp transactions "0") as Hdiff.
  { unfold Block.preimage. intros H.
    do 4 apply string_app_inv_head in H. discriminate H. }
  repeat split; [exact Hdiff|].
  intros Hcol E. apply Hdiff, Hcol, E.
Qed.

(** C9.  A freshly constructed ledger is valid: with the genesis block
    alone the loop of [isChainValid], which starts at index 1, has nothing
    to check.  This holds whatever the single block contains, so the genesis
    block's own hash and content are never examined. *)
Theorem C9_fresh_ledger_is_valid :
  Blockchain.isChainValid Blockchain.new = Return true
  /\ forall (genesis : Block.t) (d : nat) (pool : list Transactions.t) (reward : Z),
       Blockchain.isChainValid (Blockchain.Build [genesis] d pool reward) = Return true.
Proof. split; reflexivity. Qed.


End Statements.

Lemma C6_sign_only_own_wallet_witness :
  let own := Transactions.new (Some (Demo.publicOf Demo.myKey)) (Some "public key goes here") 10 in
  let other := Transactions.new (Some "04ab") (Some "public key goes here") 10 in
  (@Transactions.signTransaction Demo.crypto Demo.myKey other).2
    = Throw (Error "You cannot sign transactions for other wallets!")
  /\ Transactions.signature (@Transactions.signTransaction Demo.crypto Demo.myKey other).1 = None
  /\ (@Transactions.signTransaction Demo.crypto Demo.myKey own).2 = Return ()
  /\ Transactions.signature (@Transactions.signTransaction Demo.crypto Demo.myKey own).1
     = Some "3085186f7e6fe2352594eec90c181455ae14060a53cac775c87e580fea194facaf".
Proof.
  intros own other.
  destruct (@C6_sign_only_own_wallet Demo.crypto Demo.myKey other) as (Hother & _ & _ & Hnew).
  destruct (@C6_sign_only_own_wallet Demo.crypto Demo.myKey own) as (_ & Hown & _ & _).
  rewrite Hother by discriminate. rewrite Hown by reflexivity.
  repeat apply conj; vm_compute; reflexivity.
Defined.

Lemma C5_counterexample :
  let tx := Transactions.new None (Some "miner") 100 in
  Transactions.fromAddress tx = None
  /\ falsy (Transactions.toAddress tx) = false
  /\ @Blockchain.addTransaction Demo.crypto tx (@Blockchain.new Demo.crypto)
     <> (Blockchain.set_pendingTransactions
           (Blockchain.pendingTransactions (@Blockchain.new Demo.crypto) ++ [tx])
           (@Blockchain.new Demo.crypto), Return ()).
Proof.
  repeat apply conj; [reflexivity | reflexivity |].
  cbv [Blockchain.addTransaction Transactions.fromAddress Transactions.new falsy orb].
  intros H. apply (f_equal snd) in H. discriminate H.
Qed.

Lemma C5_null_sender_is_rejected_witness :
  @Blockchain.addTransaction Demo.crypto (Transactions.new None (Some "miner") 100)
    (@Blockchain.new Demo.crypto)
  = (@Blockchain.new Demo.crypto, Throw (Error "Transaction must include from and to address")).
Proof. apply (@C5_null_sender_is_rejected Demo.crypto). reflexivity. Defined.

(** ** The statements on concrete inputs *)

Lemma C1_chain_with_a_mined_block_is_rejected_witness :
  (forall s, @SHA256 Demo.crypto s <> "")
  /\ @reachable Demo.crypto
       (@Blockchain.addTransaction Demo.crypto
          (@Main.tx1 Demo.crypto Demo.myKey Demo.recipient) (@Blockchain.new Demo.crypto)).1
  /\ @Main.mined Demo.crypto 197 Demo.now Demo.myKey Demo.recipient = Some Demo.minedLedger
  /\ @Blockchain.isChainValid Demo.crypto Demo.minedLedger = Return false.
Proof.
  assert (@reachable Demo.crypto
            (@Blockchain.addTransaction Demo.crypto
               (@Main.tx1 Demo.crypto Demo.myKey Demo.recipient)
               (@Blockchain.new Demo.crypto)).1)
    as Hreach.
  { apply rtc_once. apply (@step_addTransaction Demo.crypto). }
  pose proof demo_mined as Hmine.
  repeat apply conj; [exact demo_digest_nonempty | exact Hreach | exact Hmine |].
  rewrite mined_unfold in Hmine.
  exact (@C1_chain_with_a_mined_block_is_rejected Demo.crypto _ _ _ _ _
           demo_digest_nonempty Hreach Hmine).
Defined.

Lemma C2_mined_block_has_empty_previousHash_witness :
  exists mined,
    Blockchain.chain Demo.freshMined = [Demo.genesis; mined]
    /\ Block.transactions mined = Block.TxArray []
    /\ substring 0 2 (Block.hash mined) = "00"
    /\ Blockchain.pendingTransactions Demo.freshMined
       = [Transactions.new None (Some "miner") 100]
    /\ Block.previousHash mined = ""
    /\ Block.previousHash mined <> Block.hash Demo.genesis.
Proof.
  destruct (@C2_mined_block_has_empty_previousHash Demo.crypto 14 Demo.now (Some "miner")
              (@Blockchain.new Demo.crypto) Demo.freshMined demo_fresh_mined)
    as (mined & Hc & Hx & _ & Hs & Hp & Hprev & Hlatest).
  exists mined. repeat apply conj.
  - etrans; [exact Hc|]. vm_compute. reflexivity.
  - exact Hx.
  - exact Hs.
  - exact Hp.
  - exact Hprev.
  - apply (Hlatest Demo.genesis); [vm_compute; reflexivity | discriminate].
Defined.

Lemma C3_tampered_amount_is_detected_witness :
  @Blockchain.isChainValid Demo.crypto Demo.linked = Return true
  /\ (exists bc, Main.tamperAmount 1 0 1 Demo.linked = Some bc
        /\ @Blockchain.isChainValid Demo.crypto bc = Return false)
  /\ @Blockchain.isChainValid Demo.crypto Demo.shared = Return true
  /\ @Blockchain.isChainValid Demo.crypto (Main.assignShared 1 Demo.sharedPlaces Demo.shared)
     = Return false
  /\ (exists bc, @Main.tampered Demo.crypto 197 Demo.now Demo.myKey Demo.recipient = Some bc
        /\ @Blockchain.isChainValid Demo.crypto bc = Return false).
Proof.
  destruct (@C3_tampered_amount_is_detected Demo.crypto) as (Hany & Hshared & Hscript).
  repeat apply conj.
  - exact demo_linked_valid.
  - apply (Hany Demo.linked 1%nat 0%nat Demo.linkedBlock
             [Transactions.new None (Some "miner") 100]
             (Transactions.new None (Some "miner") 100) 1).
    + exact demo_linked_valid.
    + lia.
    + reflexivity.
    + reflexivity.
    + reflexivity.
    + discriminate.
    + intros H. vm_compute in H. discriminate H.
  - exact demo_shared_valid.
  - apply (Hshared Demo.shared Demo.sharedPlaces 1%nat 0%nat Demo.sharedBlock
             [Demo.tx1; Demo.tx1] Demo.tx1 1).
    + exact demo_shared_valid.
    + intros [|[|i']] b' txs' [|[|j']] t Hb Hx Hheld Ht; try discriminate;
        simpl in Hb; injection Hb as <-; simpl in Hx; injection Hx as <-;
        simpl in Ht; injection Ht as <-; reflexivity.
    + lia.
    + reflexivity.
    + reflexivity.
    + reflexivity.
    + reflexivity.
    + discriminate.
    + intros [|[|k]] b' Hb; try discriminate; simpl in Hb; injection Hb as <-.
      * intros _. reflexivity.
      * intros H. vm_compute in H. discriminate H.
  - apply (Hscript Demo.myKey Demo.recipient Demo.now 197).
    + exact demo_digest_nonempty.
    + discriminate.
    + discriminate.
    + vm_compute. reflexivity.
    + lia.
    + vm_compute. reflexivity.
    + vm_compute. lia.
Defined.

Lemma C4_counterexample :
  @Transactions.isValid Demo.crypto Demo.tx1 = Return true
  /\ @Main.mined Demo.crypto 197 Demo.now Demo.myKey Demo.recipient = Some Demo.minedLedger
  /\ length (Blockchain.chain Demo.minedLedger) = 2%nat
  /\ Blockchain.getAddressOfBalance (Some Demo.recipient) Demo.minedLedger = 10
  /\ Blockchain.getAddressOfBalance (Some Demo.myWalletAddress) Demo.minedLedger = -10
  /\ Blockchain.getAddressOfBalance (Some Demo.myWalletAddress) Demo.minedLedger <> 90.
Proof.
  repeat apply conj.
  - exact demo_tx1_valid.
  - exact demo_mined.
  - reflexivity.
  - vm_compute. reflexivity.
  - vm_compute. reflexivity.
  - vm_compute. discriminate.
Qed.

Lemma C4_scenario_balances_witness :
  exists bc,
    @Main.mined Demo.crypto 197 Demo.now Demo.myKey Demo.recipient = Some bc
    /\ length (Blockchain.chain bc) = 2%nat
    /\ Blockchain.getAddressOfBalance (Some Demo.myWalletAddress) bc = -10
    /\ Blockchain.getAddressOfBalance (Some Demo.recipient) bc = 10
    /\ Blockchain.pendingTransactions bc
       = [Transactions.new None (Some Demo.myWalletAddress) 100].
Proof.
  apply (@C4_scenario_balances Demo.crypto Demo.myKey Demo.recipient Demo.now 197).
  - discriminate.
  - discriminate.
  - discriminate.
  - vm_compute. reflexivity.
  - lia.
  - vm_compute. reflexivity.
  - vm_compute. lia.
Defined.

Lemma C7_counterexample :
  let b := Block.Build 0 (Block.TxArray [Demo.badlySigned; Demo.neverSigned]) "" "" 0 in
  Demo.neverSigned ∈ [Demo.badlySigned; Demo.neverSigned]
  /\ Transactions.fromAddress Demo.neverSigned <> None
  /\ Transactions.signature Demo.neverSigned = None
  /\ @Block.hasValidTransactions Demo.crypto b = Return false
  /\ @Block.hasValidTransactions Demo.crypto b
     <> Throw (Error "No signature in this transaction").
Proof.
  repeat apply conj.
  - apply list_elem_of_further, list_elem_of_here.
  - discriminate.
  - reflexivity.
  - vm_compute. reflexivity.
  - vm_compute. discriminate.
Qed.

Lemma C7_missing_signature_throws_witness :
  let cur := Block.Build 0 (Block.TxArray [Demo.neverSigned]) "" "" 0 in
  let bad := Block.Build 0 (Block.TxArray [Demo.badlySigned]) "" "" 0 in
  @Blockchain.isChainValid Demo.crypto (Blockchain.Build [Demo.genesis; cur] 2 [] 100)
    = Throw (Error "No signature in this transaction")
  /\ @Blockchain.isChainValid Demo.crypto (Blockchain.Build [Demo.genesis; bad] 2 [] 100)
     = Return false.
Proof.
  intros cur bad. split.
  - destruct (@C7_missing_signature_throws Demo.crypto
                (Blockchain.Build [Demo.genesis; cur] 2 [] 100) Demo.genesis cur [] [])
      as (Htx & _ & _); [reflexivity | reflexivity |].
    destruct (Htx [] Demo.neverSigned []) as [Hthrow _];
      [reflexivity | constructor |].
    apply Hthrow. split; [discriminate | left; reflexivity].
  - destruct (@C7_missing_signature_throws Demo.crypto
                (Blockchain.Build [Demo.genesis; bad] 2 [] 100) Demo.genesis bad [] [])
      as (Htx & _ & _); [reflexivity | reflexivity |].
    destruct (Htx [] Demo.badlySigned []) as [_ Hfalse];
      [reflexivity | constructor |].
    apply Hfalse. vm_compute. reflexivity.
Defined.

Lemma C8_initial_hash_precedes_nonce_witness :
  let b := @Block.new Demo.crypto Demo.now (Block.TxArray []) "" in
  Block.nonce b = 0 /\ Block.hash b <> @Block.calculateHash Demo.crypto b.
Proof.
  destruct (@C8_initial_hash_precedes_nonce Demo.crypto Demo.now (Block.TxArray []) "")
    as (Hn & _ & _ & _ & Hne).
  split; [exact Hn|].
  apply Hne. intros H. vm_compute in H. discriminate H.
Defined.


(** * Further properties *)

(** ** Balances *)

Lemma balanceStep_delta (a : address) (z : Z) (tx : Transactions.t) :
  Blockchain.balanceStep a z tx = z + Blockchain.balanceStep a 0 tx.
Proof. unfold Blockchain.balanceStep. repeat case_bool_decide; lia. Qed.

Lemma fold_balanceStep (a : address) (txs : list Transactions.t) (z : Z) :
  fold_left (Blockchain.balanceStep a) txs z = z + netOfTxs a txs.
Proof.
  unfold netOfTxs. revert z. induction txs as [|tx txs IH]; intros z; simpl; [lia|].
  rewrite (IH (Blockchain.balanceStep a z tx)), (IH (Blockchain.balanceStep a 0 tx)).
  rewrite (balanceStep_delta a z tx). lia.
Qed.

Lemma netOfTxs_cons (a : address) (tx : Transactions.t) (txs : list Transactions.t) :
  netOfTxs a (tx :: txs) = Blockchain.balanceStep a 0 tx + netOfTxs a txs.
Proof. unfold netOfTxs at 1. simpl. now rewrite fold_balanceStep. Qed.

Lemma balanceBlock_delta (a : address) (z : Z) (b : Block.t) :
  Blockchain.balanceBlock a z b = z + Blockchain.balanceBlock a 0 b.
Proof.
  unfold Blockchain.balanceBlock. destruct (Block.transactions b); [|lia].
  rewrite (fold_balanceStep a txs z), (fold_balanceStep a txs 0). lia.
Qed.

Lemma fold_balanceBlock (a : address) (c : list Block.t) (z : Z) :
  fold_left (Blockchain.balanceBlock a) c z
  = z + fold_left (Blockchain.balanceBlock a) c 0.
Proof.
  revert z. induction c as [|b c IH]; intros z; simpl; [lia|].
  rewrite (IH (Blockchain.balanceBlock a z b)), (IH (Blockchain.balanceBlock a 0 b)).
  rewrite (balanceBlock_delta a z b). lia.
Qed.

Lemma balance_app (a : address) (c : list Block.t) (b : Block.t) (d : nat)
    (pool : list Transactions.t) (reward : Z) :
  Blockchain.getAddressOfBalance a (Blockchain.Build (c ++ [b]) d pool reward)
  = fold_left (Blockchain.balanceBlock a) c 0 + Blockchain.balanceBlock a 0 b.
Proof.
  unfold Blockchain.getAddressOfBalance. simpl. rewrite fold_left_app. simpl.
  apply balanceBlock_delta.
Qed.

Lemma balanceBlock_blockTxs (a : address) (z : Z) (b : Block.t) :
  Blockchain.balanceBlock a z b = fold_left (Blockchain.balanceStep a) (blockTxs b) z.
Proof. unfold Blockchain.balanceBlock, blockTxs. now destruct (Block.transactions b). Qed.

(** The two nested loops are one loop over the transactions of the chain. *)
Lemma getAddressOfBalance_minedTxs (a : address) (bc : Blockchain.t) :
  Blockchain.getAddressOfBalance a bc = netOfTxs a (minedTxs bc).
Proof.
  unfold Blockchain.getAddressOfBalance, netOfTxs, minedTxs. generalize 0.
  induction (Blockchain.chain bc) as [|b c IH]; intros z; simpl; [reflexivity|].
  now rewrite fold_left_app, <- balanceBlock_blockTxs.
Qed.

Lemma netOfTxs_received_sent (a : address) (txs : list Transactions.t) :
  netOfTxs a txs = received a txs - sent a txs.
Proof.
  induction txs as [|tx txs IH]; [reflexivity|].
  rewrite netOfTxs_cons, IH. unfold received, sent, sumZ. rewrite !filter_cons.
  unfold Blockchain.balanceStep.
  repeat case_bool_decide; repeat case_decide; try contradiction; simpl; lia.
Qed.

Lemma volume_nonneg (txs : list Transactions.t) : 0 <= volume txs.
Proof. unfold volume, sumZ. induction txs as [|tx txs IH]; simpl; lia. Qed.

Lemma volume_app (l1 l2 : list Transactions.t) : volume (l1 ++ l2) = volume l1 + volume l2.
Proof. unfold volume, sumZ. induction l1 as [|tx l1 IH]; simpl; lia. Qed.

Lemma volume_take (k : nat) (txs : list Transactions.t) : volume (take k txs) <= volume txs.
Proof.
  rewrite <- (take_drop k txs) at 2. rewrite volume_app.
  pose proof (volume_nonneg (drop k txs)). lia.
Qed.

(** No value of the running balance exceeds the volume. *)
Lemma balance_bound (a : address) (txs : list Transactions.t) (z : Z) :
  Z.abs (fold_left (Blockchain.balanceStep a) txs z) <= Z.abs z + volume txs.
Proof.
  revert z. induction txs as [|tx txs IH]; intros z.
  - unfold volume, sumZ. simpl. lia.
  - simpl. etrans; [apply IH|].
    change (volume (tx :: txs)) with (Z.abs (Transactions.amount tx) + volume txs).
    unfold Blockchain.balanceStep. repeat case_bool_decide; lia.
Qed.

Section BalanceFacts.
Context {crypto : Crypto}.

Lemma addTransaction_chain (tx : Transactions.t) (bc : Blockchain.t) :
  Blockchain.chain (Blockchain.addTransaction tx bc).1 = Blockchain.chain bc.
Proof.
  unfold Blockchain.addTransaction.
  destruct (falsy _ || falsy _); [reflexivity|].
  now destruct (Transactions.isValid tx) as [[|]|].
Qed.

Lemma balance_mined (a : address) (fuel : nat) (now : Z) (miner : address)
    (bc bc' : Blockchain.t) :
  Blockchain.minePendingTransaction fuel now miner bc = Some bc' ->
  Blockchain.getAddressOfBalance a bc'
  = Blockchain.getAddressOfBalance a bc + netOfTxs a (Blockchain.pendingTransactions bc).
Proof.
  intros H. apply minePendingTransaction_Some in H as (mined & k & Hm & _ & ->).
  rewrite balance_app. unfold Blockchain.getAddressOfBalance. f_equal.
  destruct (afterNonces_fields k
              (Block.new now (Block.TxArray (Blockchain.pendingTransactions bc)) ""))
    as (_ & Hx & _ & _).
  rewrite <- Hm in Hx. unfold Blockchain.balanceBlock. rewrite Hx. reflexivity.
Qed.

(** X1.  Only mined transactions count.  For integer amounts whose
    absolute values, over the chain and the pool, add up to at most
    [Number.MAX_SAFE_INTEGER] (so that no addition of the loop rounds): the
    balance of [a] is what [a] receives minus what it sends in the
    transactions of the chain, and every value the running balance takes
    is within that bound; [addTransaction] leaves the balance as it was,
    whether it returns or throws; and a [minePendingTransaction] that
    returns adds what [a] receives minus what it sends in the pool it
    packaged, the reward it queues not being part of it. *)
Theorem X1_balance_counts_mined_transactions_only (a : address) (bc : Blockchain.t) :
  volume (minedTxs bc ++ Blockchain.pendingTransactions bc) <= maxSafeInteger ->
  Blockchain.getAddressOfBalance a bc = received a (minedTxs bc) - sent a (minedTxs bc)
  /\ (forall k,
        Z.abs (fold_left (Blockchain.balanceStep a) (take k (minedTxs bc)) 0)
        <= maxSafeInteger)
  /\ (forall tx, Blockchain.getAddressOfBalance a (Blockchain.addTransaction tx bc).1
                 = Blockchain.getAddressOfBalance a bc)
  /\ (forall fuel now miner bc',
        Blockchain.minePendingTransaction fuel now miner bc = Some bc' ->
        Blockchain.getAddressOfBalance a bc'
        = Blockchain.getAddressOfBalance a bc
          + (received a (Blockchain.pendingTransactions bc)
             - sent a (Blockchain.pendingTransactions bc))).
Proof.
  intros Hbound. rewrite volume_app in Hbound.
  pose proof (volume_nonneg (Blockchain.pendingTransactions bc)) as Hpool.
  repeat apply conj.
  - now rewrite getAddressOfBalance_minedTxs, netOfTxs_received_sent.
  - intros k.
    pose proof (balance_bound a (take k (minedTxs bc)) 0) as Hk.
    pose proof (volume_take k (minedTxs bc)) as Ht. lia.
  - intros tx. unfold Blockchain.getAddressOfBalance. now rewrite addTransaction_chain.
  - intros fuel now miner bc' H.
    now rewrite (balance_mined _ _ _ _ _ _ H), netOfTxs_received_sent.
Qed.

(** X2.  The reward queued by [minePendingTransaction(m)] for a string
    address [m] reaches the balance of [m] when the next
    [minePendingTransaction] returns, whoever calls it.  For integer
    amounts whose absolute values, over the chain, the pool and the reward,
    add up to at most [Number.MAX_SAFE_INTEGER]: after the two calls the
    balance of [m] is the old one, plus what [m] receives minus what it
    sends in the first pool, plus the reward. *)
Theorem X2_reward_is_credited_by_the_next_block (m : string) (bc bc1 bc2 : Blockchain.t)
    (fuel1 fuel2 : nat) (now1 now2 : Z) (miner2 : address) :
  volume (minedTxs bc ++ Blockchain.pendingTransactions bc)
    + Z.abs (Blockchain.mimingReward bc) <= maxSafeInteger ->
  Blockchain.minePendingTransaction fuel1 now1 (Some m) bc = Some bc1 ->
  Blockchain.minePendingTransaction fuel2 now2 miner2 bc1 = Some bc2 ->
  Blockchain.getAddressOfBalance (Some m) bc2
  = Blockchain.getAddressOfBalance (Some m) bc
    + (received (Some m) (Blockchain.pendingTransactions bc)
       - sent (Some m) (Blockchain.pendingTransactions bc))
    + Blockchain.mimingReward bc.
Proof.
  intros _ H1 H2. rewrite (balance_mined _ _ _ _ _ _ H2), (balance_mined _ _ _ _ _ _ H1).
  rewrite <- netOfTxs_received_sent.
  apply minePendingTransaction_Some in H1 as (mined & k & _ & _ & ->). simpl.
  unfold netOfTxs at 2. simpl. unfold Blockchain.balanceStep. simpl.
  rewrite bool_decide_eq_true_2 by reflexivity. lia.
Qed.

End BalanceFacts.

(** *** Conservation *)

Lemma total_add {A : Type} (f g : A -> Z) (l : list A) :
  foldr Z.add 0 (map (fun a => f a + g a) l)
  = foldr Z.add 0 (map f l) + foldr Z.add 0 (map g l).
Proof. induction l as [|a l IH]; simpl; lia. Qed.

Lemma total_zero {A : Type} (l : list A) : foldr Z.add 0 (map (fun _ => 0) l) = 0.
Proof. induction l as [|a l IH]; simpl; lia. Qed.

Lemma total_ext {A : Type} (f g : A -> Z) (l : list A) :
  (forall a, f a = g a) -> foldr Z.add 0 (map f l) = foldr Z.add 0 (map g l).
Proof. intros H. induction l as [|a l IH]; simpl; [reflexivity|]. now rewrite H, IH. Qed.

Lemma total_indicator_absent (x : address) (v : Z) (l : list address) :
  x ∉ l ->
  foldr Z.add 0 (map (fun a => if bool_decide (x = a) then v else 0) l) = 0.
Proof.
  induction l as [|a l IH]; intros Hx; [reflexivity|]. simpl.
  apply not_elem_of_cons in Hx as [Hne Hx].
  rewrite bool_decide_eq_false_2 by assumption. rewrite IH by assumption. lia.
Qed.

Lemma total_indicator (x : address) (v : Z) (l : list address) :
  NoDup l -> x ∈ l ->
  foldr Z.add 0 (map (fun a => if bool_decide (x = a) then v else 0) l) = v.
Proof.
  induction 1 as [|a l Ha Hl IH]; intros Hx; [now apply elem_of_nil in Hx|].
  simpl. apply elem_of_cons in Hx as [->|Hx].
  - rewrite bool_decide_eq_true_2 by reflexivity.
    rewrite total_indicator_absent by assumption. lia.
  - rewrite bool_decide_eq_false_2 by (intros ->; contradiction).
    rewrite IH by assumption. lia.
Qed.

Lemma total_step (l : list address) (tx : Transactions.t) :
  NoDup l -> Transactions.fromAddress tx ∈ l -> Transactions.toAddress tx ∈ l ->
  foldr Z.add 0 (map (fun a => Blockchain.balanceStep a 0 tx) l) = 0.
Proof.
  intros Hl Hf Ht.
  rewrite (total_ext _ (fun a =>
             (if bool_decide (Transactions.fromAddress tx = a)
              then - Transactions.amount tx else 0)
             + (if bool_decide (Transactions.toAddress tx = a)
                then Transactions.amount tx else 0))).
  - rewrite total_add, !total_indicator by assumption. lia.
  - intros a. unfold Blockchain.balanceStep. repeat case_bool_decide; lia.
Qed.

Lemma total_txs (l : list address) (txs : list Transactions.t) :
  NoDup l ->
  (forall tx, tx ∈ txs ->
     Transactions.fromAddress tx ∈ l /\ Transactions.toAddress tx ∈ l) ->
  foldr Z.add 0 (map (fun a => netOfTxs a txs) l) = 0.
Proof.
  intros Hl. induction txs as [|tx txs IH]; intros H.
  - apply total_zero.
  - rewrite (total_ext _ (fun a => Blockchain.balanceStep a 0 tx + netOfTxs a txs))
      by (intros a; apply netOfTxs_cons).
    rewrite total_add, IH, total_step; try assumption; try lia.
    + apply H. left.
    + apply H. left.
    + intros tx' Htx'. apply H. now right.
Qed.

Lemma total_block (l : list address) (b : Block.t) :
  NoDup l ->
  (forall txs tx, Block.transactions b = Block.TxArray txs -> tx ∈ txs ->
     Transactions.fromAddress tx ∈ l /\ Transactions.toAddress tx ∈ l) ->
  foldr Z.add 0 (map (fun a => Blockchain.balanceBlock a 0 b) l) = 0.
Proof.
  intros Hl H. unfold Blockchain.balanceBlock.
  destruct (Block.transactions b) as [txs|s]; [|apply total_zero].
  apply (total_txs l txs Hl). intros tx Htx. now apply (H txs).
Qed.

(** X3.  Conservation.  For integer amounts whose absolute values add up
    to at most [Number.MAX_SAFE_INTEGER] over the chain (so that every
    balance is computed without rounding): over any list of distinct
    addresses ([null] counts as one) that holds every sender and recipient
    of the transactions of the chain, the balances sum to zero; what a
    reward credits to the miner is debited from [null]. *)
Theorem X3_balances_sum_to_zero (addrs : list address) (bc : Blockchain.t) :
  volume (minedTxs bc) <= maxSafeInteger ->
  NoDup addrs ->
  coversEndpoints addrs bc ->
  totalBalance addrs bc = 0.
Proof.
  intros _ Hl Hcov. unfold totalBalance, Blockchain.getAddressOfBalance, coversEndpoints in *.
  induction (Blockchain.chain bc) as [|b c IH] using rev_ind; [apply total_zero|].
  rewrite (total_ext _ (fun a => fold_left (Blockchain.balanceBlock a) c 0
                                 + Blockchain.balanceBlock a 0 b)).
  - rewrite total_add, IH, total_block; try assumption; try lia.
    + intros txs tx Hx Htx. apply (Hcov b txs tx); [|assumption..].
      apply elem_of_app. right. left.
    + intros b0 txs tx Hb0. apply Hcov. apply elem_of_app. now left.
  - intros a. rewrite fold_left_app. simpl. apply balanceBlock_delta.
Qed.

(** ** The pool and the latest block *)

Section PoolFacts.
Context {crypto : Crypto}.

Lemma addTransaction_accepted (tx : Transactions.t) (bc : Blockchain.t) :
  Blockchain.addTransaction tx bc
  = if accepted tx
    then (Blockchain.set_pendingTransactions
            (Blockchain.pendingTransactions bc ++ [tx]) bc, Return ())
    else (bc, (Blockchain.addTransaction tx bc).2).
Proof.
  unfold Blockchain.addTransaction, accepted.
  destruct (falsy _ || falsy _); [reflexivity|]. simpl.
  now destruct (Transactions.isValid tx) as [[|]|].
Qed.

Lemma addAll_fields (txs : list Transactions.t) (bc : Blockchain.t) :
  Blockchain.chain (addAll txs bc) = Blockchain.chain bc
  /\ Blockchain.difficulty (addAll txs bc) = Blockchain.difficulty bc
  /\ Blockchain.mimingReward (addAll txs bc) = Blockchain.mimingReward bc
  /\ Blockchain.pendingTransactions (addAll txs bc)
     = Blockchain.pendingTransactions bc ++ filter (fun tx => accepted tx = true) txs.
Proof.
  unfold addAll. revert bc. induction txs as [|tx txs IH]; intros bc; simpl.
  - now rewrite app_nil_r.
  - destruct (IH (Blockchain.addTransaction tx bc).1) as (-> & -> & -> & ->).
    rewrite filter_cons, addTransaction_accepted.
    destruct (decide (accepted tx = true)) as [E|E].
    + rewrite E. simpl. now rewrite <- app_assoc.
    + apply not_true_is_false in E. rewrite E. repeat split.
Qed.

(** X4.  Submission order is block order: after any sequence of
    [addTransaction] calls the pool is the old pool followed by the
    transactions that were accepted, in the order they were submitted
    (rejected ones leave no trace, and the chain is not touched); a
    [minePendingTransaction] that returns then packages exactly that list,
    in that order, into the block it appends. *)
Theorem X4_submission_order_is_block_order (txs : list Transactions.t) (bc : Blockchain.t) :
  Blockchain.chain (addAll txs bc) = Blockchain.chain bc
  /\ Blockchain.pendingTransactions (addAll txs bc)
     = Blockchain.pendingTransactions bc ++ filter (fun tx => accepted tx = true) txs
  /\ (forall fuel now miner bc',
        Blockchain.minePendingTransaction fuel now miner (addAll txs bc) = Some bc' ->
        exists mined,
          Blockchain.chain bc' = Blockchain.chain bc ++ [mined]
          /\ Block.transactions mined
             = Block.TxArray (Blockchain.pendingTransactions bc
                              ++ filter (fun tx => accepted tx = true) txs)).
Proof.
  destruct (addAll_fields txs bc) as (Hc & _ & _ & Hp).
  repeat split; try assumption.
  intros fuel now miner bc' H.
  apply minePendingTransaction_Some in H as (mined & k & Hm & _ & ->).
  exists mined. simpl. rewrite Hc. split; [reflexivity|].
  destruct (afterNonces_fields k
              (Block.new now (Block.TxArray (Blockchain.pendingTransactions (addAll txs bc))) ""))
    as (_ & Hx & _ & _).
  rewrite <- Hm in Hx. rewrite Hx. simpl. now rewrite Hp.
Qed.

Lemma getLatestBlock_app (c : list Block.t) (b : Block.t) (d : nat)
    (pool : list Transactions.t) (reward : Z) :
  Blockchain.getLatestBlock (Blockchain.Build (c ++ [b]) d pool reward) = Some b.
Proof.
  unfold Blockchain.getLatestBlock. simpl. rewrite length_app. simpl.
  replace (length c + 1 - 1)%nat with (length c + 0)%nat by lia.
  now rewrite lookup_app_r, Nat.add_0_r, Nat.sub_diag by lia.
Qed.

(** X5.  [getLatestBlock] is the block mined last: on a fresh ledger it
    is the genesis block, after a [minePendingTransaction] that returns it
    is the appended block, [addTransaction] does not change it, and on a
    ledger built by these calls it is never [undefined]; only with an empty
    chain is it [undefined]. *)
Theorem X5_getLatestBlock_is_the_last_mined_block :
  Blockchain.getLatestBlock Blockchain.new = Some Blockchain.createGenesisBlock
  /\ (forall fuel now miner bc bc',
        Blockchain.minePendingTransaction fuel now miner bc = Some bc' ->
        exists mined, Blockchain.getLatestBlock bc' = Some mined
          /\ Blockchain.chain bc' = Blockchain.chain bc ++ [mined])
  /\ (forall tx bc, Blockchain.getLatestBlock (Blockchain.addTransaction tx bc).1
                    = Blockchain.getLatestBlock bc)
  /\ (forall bc, reachable bc -> is_Some (Blockchain.getLatestBlock bc))
  /\ (forall bc, Blockchain.getLatestBlock bc = None <-> Blockchain.chain bc = []).
Proof.
  repeat split.
  - intros fuel now miner bc bc' H.
    apply minePendingTransaction_Some in H as (mined & k & _ & _ & ->).
    exists mined. split; [apply getLatestBlock_app | reflexivity].
  - intros tx bc. unfold Blockchain.getLatestBlock. now rewrite addTransaction_chain.
  - intros bc H. apply reachable_ledgerInv in H as (rest & Hc & _).
    unfold Blockchain.getLatestBlock. apply lookup_lt_is_Some. rewrite Hc. simpl. lia.
  - unfold Blockchain.getLatestBlock. intros H. apply lookup_ge_None in H.
    destruct (Blockchain.chain bc); [reflexivity | simpl in H; lia].
  - unfold Blockchain.getLatestBlock. now intros ->.
Qed.

End PoolFacts.

(** ** Proof of work *)





Section WorkFacts.
Context {crypto : Crypto}.




(** X7.  What [minePendingTransaction] seals.  Either the hash stored by
    the constructor already meets the target, and the block keeps nonce 0
    and that hash; or the nonce [n] of the block is positive, its hash is
    the digest [calculateHash] gives for it, and [n] is the least positive
    nonce whose digest meets the target (the constructor's hash did not). *)
Theorem X7_mined_nonce_is_the_first_that_meets_the_target (fuel : nat) (now : Z)
    (miner : address) (bc bc' : Blockchain.t) :
  Blockchain.minePendingTransaction fuel now miner bc = Some bc' ->
  exists mined,
    Blockchain.getLatestBlock bc' = Some mined
    /\ Block.sealed (Blockchain.difficulty bc) (Block.hash mined) = true
    /\ ((Block.nonce mined = 0
         /\ Block.hash mined
            = SHA256 (Block.preimage "" now
                        (Block.TxArray (Blockchain.pendingTransactions bc)) "undefined"))
        \/ (1 <= Block.nonce mined <= Z.of_nat fuel
            /\ Block.hash mined = Block.calculateHash mined
            /\ Block.sealed (Blockchain.difficulty bc)
                 (SHA256 (Block.preimage "" now
                            (Block.TxArray (Blockchain.pendingTransactions bc))
                            "undefined")) = false
            /\ forall n, 1 <= n < Block.nonce mined ->
                 Block.sealed (Blockchain.difficulty bc)
                   (SHA256 (Block.preimage "" now
                              (Block.TxArray (Blockchain.pendingTransactions bc))
                              (pretty n))) = false)).
Proof.
  unfold Blockchain.minePendingTransaction. intros H.
  destruct (Block.mineBlock _ _ _) as [mined|] eqn:E; [|discriminate].
  injection H as <-. exists mined. split; [apply getLatestBlock_app|].
  apply mineBlock_Some in E as (k & Hk & -> & Hs & Hlt).
  split; [exact Hs|].
  destruct (afterNonces_fields k
              (Block.new now (Block.TxArray (Blockchain.pendingTransactions bc)) ""))
    as (_ & _ & _ & Hn). simpl in Hn.
  destruct k as [|k].
  - left. split; reflexivity.
  - right. rewrite Hn. repeat split; try lia.
    + apply (Hlt 0%nat). lia.
    + intros n Hrange. specialize (Hlt (Z.to_nat n)).
      destruct (Z.to_nat n) as [|j] eqn:Ej; [lia|].
      rewrite afterNonces_hash in Hlt. simpl in Hlt.
      replace (0 + Z.of_nat (S j)) with n in Hlt by lia. apply Hlt. lia.
Qed.

End WorkFacts.

(** ** What [isChainValid] checks and what it does not *)

Section ChainFacts.
Context {crypto : Crypto}.

Lemma isChainValidFrom_true_iff (prev : Block.t) (rest : list Block.t) :
  Blockchain.isChainValidFrom prev rest = Return true
  <-> forall i p c, (prev :: rest) !! i = Some p -> (prev :: rest) !! S i = Some c ->
        passes p c.
Proof.
  revert prev. induction rest as [|cur rest IH]; intros prev.
  - split; [|reflexivity]. intros _ [|i] p c _ H; discriminate H.
  - split.
    + intros H. apply isChainValidFrom_true_inv in H as [Hp H].
      intros [|i] p c Hi Hc.
      * simpl in Hi, Hc. now simplify_eq.
      * apply (proj1 (IH cur) H i); assumption.
    + intros H. rewrite (isChainValidFrom_passes prev cur rest (H 0%nat prev cur eq_refl eq_refl)).
      apply IH. intros i p c Hi Hc. apply (H (S i)); assumption.
Qed.

(** X8.  [isChainValid] returns [true] exactly when every block after the
    first passes the three checks against the block before it: its
    transactions are all valid, its stored hash is the digest of its text,
    and its [previousHash] is the stored hash of its predecessor. *)
Theorem X8_isChainValid_true_iff_adjacent_blocks_pass (bc : Blockchain.t) :
  Blockchain.isChainValid bc = Return true
  <-> forall i p c, Blockchain.chain bc !! i = Some p ->
        Blockchain.chain bc !! S i = Some c -> passes p c.
Proof.
  unfold Blockchain.isChainValid. destruct (Blockchain.chain bc) as [|g rest].
  - split; [|reflexivity]. intros _ i p c H. discriminate H.
  - apply isChainValidFrom_true_iff.
Qed.

Lemma isChainValidFrom_prev_hash (prev prev' : Block.t) (rest : list Block.t) :
  Block.hash prev' = Block.hash prev ->
  Blockchain.isChainValidFrom prev' rest = Blockchain.isChainValidFrom prev rest.
Proof. intros H. destruct rest; simpl; [reflexivity | now rewrite H]. Qed.

(** X9.  The first block is taken on trust: the outcome of [isChainValid]
    (the value returned or the exception thrown) depends on it only through
    its stored hash.  Its timestamp, transactions, [previousHash] and nonce
    can be anything, and its hash need not be the digest of its text. *)
Theorem X9_first_block_is_never_examined (g g' : Block.t) (rest : list Block.t)
    (d d' : nat) (pool pool' : list Transactions.t) (reward reward' : Z) :
  Block.hash g' = Block.hash g ->
  Blockchain.isChainValid (Blockchain.Build (g' :: rest) d' pool' reward')
  = Blockchain.isChainValid (Blockchain.Build (g :: rest) d pool reward).
Proof. intros H. unfold Blockchain.isChainValid. simpl. now apply isChainValidFrom_prev_hash. Qed.

Lemma isChainValidFrom_snoc (prev : Block.t) (c : list Block.t) (b : Block.t) :
  Blockchain.isChainValidFrom prev (c ++ [b]) = Return true
  <-> Blockchain.isChainValidFrom prev c = Return true /\ passes (List.last c prev) b.
Proof.
  split.
  - intros H. pose proof (isChainValidFrom_app_inv _ _ _ H) as Hc.
    rewrite (isChainValidFrom_app _ _ _ Hc) in H.
    apply isChainValidFrom_true_inv in H as [Hp _]. now split.
  - intros [Hc Hp]. rewrite (isChainValidFrom_app _ _ _ Hc).
    now rewrite (isChainValidFrom_passes _ _ _ Hp).
Qed.

(** X10.  Appending and truncating.  A chain with one more block at its
    end is accepted exactly when the chain without it is accepted and the
    new block passes the three checks against the former last block;
    neither the difficulty nor the leading zeros of the new hash matter.
    So dropping blocks from the end of an accepted chain leaves an accepted
    chain. *)
Theorem X10_append_and_truncate (g : Block.t) (c : list Block.t) (b : Block.t)
    (d : nat) (pool : list Transactions.t) (reward : Z) :
  (Blockchain.isChainValid (Blockchain.Build ((g :: c) ++ [b]) d pool reward) = Return true
   <-> Blockchain.isChainValid (Blockchain.Build (g :: c) d pool reward) = Return true
       /\ passes (List.last c g) b)
  /\ (forall n,
        Blockchain.isChainValid (Blockchain.Build (g :: c) d pool reward) = Return true ->
        Blockchain.isChainValid (Blockchain.Build (take n (g :: c)) d pool reward)
        = Return true).
Proof.
  split.
  - unfold Blockchain.isChainValid. simpl. apply isChainValidFrom_snoc.
  - unfold Blockchain.isChainValid. simpl. intros [|n] H; [reflexivity|]. simpl.
    rewrite <- (take_drop n c) in H. now apply isChainValidFrom_app_inv in H.
Qed.

Lemma hasValidTransactions_same (b b' : Block.t) :
  Block.transactions b' = Block.transactions b ->
  Block.hasValidTransactions b' = Block.hasValidTransactions b.
Proof. unfold Block.hasValidTransactions. now intros ->. Qed.

Lemma lookup_last_take {A : Type} (c : list A) (g : A) (i : nat) :
  (i <= length c)%nat -> (g :: c) !! i = Some (List.last (take i c) g).
Proof.
  revert g i. induction c as [|x c IH]; intros g [|i] Hi; simpl in *;
    try lia; try reflexivity.
  change ((x :: c) !! i = Some (List.last (x :: take i c) g)).
  rewrite last_cons_default. apply IH. lia.
Qed.

(** The loop up to block [i], which passed before the change. *)
Lemma isChainValid_replace (bc : Blockchain.t) (i : nat) (b b' : Block.t) :
  Blockchain.isChainValid bc = Return true ->
  Blockchain.chain bc !! S i = Some b ->
  exists prev post,
    Blockchain.chain bc !! i = Some prev
    /\ passes prev b
    /\ Blockchain.isChainValid (Blockchain.set_chain (<[S i := b']> (Blockchain.chain bc)) bc)
       = Blockchain.isChainValidFrom prev (b' :: post).
Proof.
  unfold Blockchain.isChainValid. simpl. intros Hvalid Hb.
  destruct (Blockchain.chain bc) as [|g c]; [discriminate|]. simpl in Hb. simpl.
  pose proof (lookup_lt_Some _ _ _ Hb) as Hlt.
  rewrite (insert_take_drop c i) by exact Hlt.
  rewrite <- (take_drop_middle c i b Hb) in Hvalid.
  pose proof (isChainValidFrom_app_inv _ _ _ Hvalid) as Hgood.
  rewrite (isChainValidFrom_app _ _ _ Hgood) in Hvalid.
  rewrite (isChainValidFrom_app _ _ _ Hgood).
  apply isChainValidFrom_true_inv in Hvalid as [Hpass _].
  exists (List.last (take i c) g), (drop (S i) c).
  split; [apply lookup_last_take; lia | split; [exact Hpass | reflexivity]].
Qed.

(** X11.  Changes to the stored hashes are caught without any assumption
    on SHA256.  On an accepted chain, giving a block other than the first a
    different [previousHash], or a different stored hash with the rest of
    the block unchanged, makes [isChainValid] return [false]; so does giving
    the first block a different stored hash when a second block exists. *)
Theorem X11_changed_hash_fields_are_rejected (bc : Blockchain.t) :
  Blockchain.isChainValid bc = Return true ->
  (forall i b b',
     Blockchain.chain bc !! S i = Some b ->
     Block.transactions b' = Block.transactions b ->
     Block.previousHash b' <> Block.previousHash b
     \/ (Block.hash b' <> Block.hash b
         /\ Block.previousHash b' = Block.previousHash b
         /\ Block.timestamp b' = Block.timestamp b
         /\ Block.nonce b' = Block.nonce b) ->
     Blockchain.isChainValid
       (Blockchain.set_chain (<[S i := b']> (Blockchain.chain bc)) bc) = Return false)
  /\ (forall g g' b,
        Blockchain.chain bc !! 0%nat = Some g ->
        Blockchain.chain bc !! 1%nat = Some b ->
        Block.hash g' <> Block.hash g ->
        Blockchain.isChainValid
          (Blockchain.set_chain (<[0%nat := g']> (Blockchain.chain bc)) bc) = Return false).
Proof.
  intros Hvalid. split.
  - intros i b b' Hb Hx Hchange.
    destruct (isChainValid_replace bc i b b' Hvalid Hb) as (prev & post & _ & Hpass & ->).
    destruct Hpass as (Hv & Hh & Hp).
    rewrite <- (hasValidTransactions_same b b' Hx) in Hv.
    destruct Hchange as [Hprev | (Hhash & Hprev & Hts & Hn)].
    + apply isChainValidFrom_link_mismatch; [exact Hv | congruence].
    + apply isChainValidFrom_hash_mismatch; [exact Hv|].
      unfold Block.calculateHash, Block.text in *. rewrite Hprev, Hts, Hn, Hx. congruence.
  - intros g g' b Hg Hb Hhash. unfold Blockchain.isChainValid in *. simpl.
    destruct (Blockchain.chain bc) as [|g0 [|b0 c]]; try discriminate.
    simpl in Hg, Hb. simplify_eq. simpl.
    apply isChainValidFrom_true_inv in Hvalid as [(Hv & _ & Hp) _].
    apply isChainValidFrom_link_mismatch; [exact Hv | congruence].
Qed.

End ChainFacts.

(** ** The JSON text determines what was serialised *)















(** ** Any change to a block of an accepted chain *)


Section ImmutabilityFacts.
Context {crypto : Crypto}.



End ImmutabilityFacts.

(** ** Signing *)

Section SigningFacts.
Context {crypto : Crypto}.

(** X13.  Sign, then verify.  When every signature the provider makes is
    non-empty and verifies under the signer's public key, signing a
    transaction with the sender's key returns; it leaves the transaction's
    hash as it was (the signature is not part of it); [isValid] returns
    [true] on the signed transaction; signing again changes nothing; and
    [addTransaction] puts it at the end of the pool when the recipient and
    the public key are not empty. *)
Theorem X13_a_signed_transaction_is_accepted (k : KeyPair) (tx : Transactions.t) :
  (forall k' h, signDER k' h <> "") ->
  (forall k' h, verify (getPublic k') h (signDER k' h) = true) ->
  Transactions.fromAddress tx = Some (getPublic k) ->
  (Transactions.signTransaction k tx).2 = Return ()
  /\ Transactions.calculateHash (Transactions.signTransaction k tx).1
     = Transactions.calculateHash tx
  /\ Transactions.isValid (Transactions.signTransaction k tx).1 = Return true
  /\ Transactions.signTransaction k (Transactions.signTransaction k tx).1
     = ((Transactions.signTransaction k tx).1, Return ())
  /\ (forall bc,
        getPublic k <> "" ->
        falsy (Transactions.toAddress tx) = false ->
        Blockchain.addTransaction (Transactions.signTransaction k tx).1 bc
        = (Blockchain.set_pendingTransactions
             (Blockchain.pendingTransactions bc ++ [(Transactions.signTransaction k tx).1]) bc,
           Return ())).
Proof.
  intros Hne Hver Hfrom.
  assert (Transactions.signTransaction k tx
          = (Transactions.set_signature (signDER k (Transactions.calculateHash tx)) tx,
             Return ())) as Hsign.
  { unfold Transactions.signTransaction.
    rewrite bool_decide_eq_false_2; [reflexivity|]. rewrite Hfrom. auto. }
  assert (Transactions.isValid
            (Transactions.set_signature (signDER k (Transactions.calculateHash tx)) tx)
          = Return true) as Hvalid.
  { unfold Transactions.isValid. simpl. rewrite Hfrom.
    destruct (String.length _ =? 0)%nat eqn:E.
    - apply Nat.eqb_eq in E. exfalso. apply (Hne k (Transactions.calculateHash tx)).
      now destruct (signDER k (Transactions.calculateHash tx)).
    - f_equal. apply Hver. }
  rewrite Hsign. simpl. repeat apply conj.
  - reflexivity.
  - reflexivity.
  - exact Hvalid.
  - unfold Transactions.signTransaction. simpl.
    rewrite bool_decide_eq_false_2; [reflexivity|]. rewrite Hfrom. auto.
  - intros bc Hpub Hto. rewrite addTransaction_accepted.
    assert (accepted (Transactions.set_signature
                        (signDER k (Transactions.calculateHash tx)) tx) = true) as ->;
      [|reflexivity].
    unfold accepted. rewrite Hvalid.
    cbn [Transactions.fromAddress Transactions.toAddress Transactions.set_signature].
    rewrite Hfrom, Hto. cbn [falsy].
    apply String.eqb_neq in Hpub. now rewrite Hpub.
Qed.

End SigningFacts.

(** ** Texts hashed without separators *)

Lemma pretty_N_go_app (x : N) (s : string) :
  pretty_N_go x s = pretty_N_go x "" +:+ s.
Proof.
  revert s. induction (N.lt_wf_0 x) as [x _ IH]; intros s.
  destruct (decide (x = 0)%N) as [->|Hx]; [now rewrite !pretty_N_go_0|].
  rewrite (pretty_N_go_step x s), (pretty_N_go_step x "") by lia.
  rewrite (IH (x `div` 10)%N), (IH (x `div` 10)%N ltac:(apply N.div_lt; lia) (String _ ""))
    by (apply N.div_lt; lia).
  now rewrite string_app_assoc.
Qed.

Lemma pretty_N_digits (a d : N) :
  (0 < a)%N -> (d <= 9)%N -> pretty (10 * a + d)%N = pretty a +:+ pretty d.
Proof.
  intros Ha Hd. unfold pretty, pretty_N.
  rewrite !decide_False by lia.
  rewrite pretty_N_go_step by lia.
  replace ((10 * a + d) `div` 10)%N with a
    by (apply (N.div_unique _ 10 a d); lia).
  replace ((10 * a + d) `mod` 10)%N with d
    by (apply (N.mod_unique _ 10 a d); lia).
  rewrite pretty_N_go_app. f_equal.
  destruct (decide (d = 0)%N) as [->|Hd0]; [reflexivity|].
  rewrite pretty_N_go_step by lia.
  rewrite N.div_small, N.mod_small by lia. now rewrite pretty_N_go_0.
Qed.

Lemma pretty_Z_digits (a d : Z) :
  0 < a -> 0 <= d <= 9 -> pretty (10 * a + d) = pretty a +:+ pretty d.
Proof.
  intros Ha Hd.
  assert (forall z : Z, 0 <= z -> pretty z = pretty (Z.to_N z)) as HN.
  { intros [|p|p] Hz; [reflexivity | reflexivity | lia]. }
  rewrite !HN by lia.
  replace (Z.to_N (10 * a + d)) with (10 * Z.to_N a + Z.to_N d)%N by lia.
  apply pretty_N_digits; lia.
Qed.

Section BoundaryFacts.
Context {crypto : Crypto}.

(** X14.  The hashed texts join their fields without separators, so a
    digit can move from one field to the next.  For numbers up to
    [Number.MAX_SAFE_INTEGER], which the program prints in decimal: a
    payment of [10 * a + d]
    to [r] and a payment of [d] to the address [r] followed by the digits of
    [a] have the same hash: with the same sender and signature [isValid]
    gives the same outcome on both, and for a non-empty [r] so does
    [addTransaction].  Likewise a block's [calculateHash] does not tell a
    [previousHash] that ends in those digits from a longer timestamp. *)
Theorem X14_hashed_fields_are_not_delimited (a d : Z) :
  0 < a -> 0 <= d <= 9 -> 10 * a + d <= maxSafeInteger ->
  (forall sender r sig,
     Transactions.calculateHash (Transactions.Build sender (Some (r +:+ pretty a)) d sig)
     = Transactions.calculateHash (Transactions.Build sender (Some r) (10 * a + d) sig)
     /\ Transactions.isValid (Transactions.Build sender (Some (r +:+ pretty a)) d sig)
        = Transactions.isValid (Transactions.Build sender (Some r) (10 * a + d) sig)
     /\ (r <> "" ->
         forall bc,
           (Blockchain.addTransaction
              (Transactions.Build sender (Some (r +:+ pretty a)) d sig) bc).2
           = (Blockchain.addTransaction
                (Transactions.Build sender (Some r) (10 * a + d) sig) bc).2))
  /\ (forall p txs h n,
        Block.calculateHash (Block.Build d txs (p +:+ pretty a) h n)
        = Block.calculateHash (Block.Build (10 * a + d) txs p h n)).
Proof.
  intros Ha Hd _.
  assert (forall sender r sig,
            Transactions.calculateHash
              (Transactions.Build sender (Some (r +:+ pretty a)) d sig)
            = Transactions.calculateHash
                (Transactions.Build sender (Some r) (10 * a + d) sig)) as Hhash.
  { intros sender r sig. unfold Transactions.calculateHash, Transactions.preimage. simpl.
    now rewrite pretty_Z_digits, !string_app_assoc by assumption. }
  assert (forall sender r sig,
            Transactions.isValid (Transactions.Build sender (Some (r +:+ pretty a)) d sig)
            = Transactions.isValid (Transactions.Build sender (Some r) (10 * a + d) sig))
    as Hvalid.
  { intros sender r sig. unfold Transactions.isValid. simpl. now rewrite Hhash. }
  split.
  - intros sender r sig. repeat apply conj; [apply Hhash | apply Hvalid |].
    intros Hr bc. unfold Blockchain.addTransaction. simpl. rewrite Hvalid.
    assert (String.eqb (r +:+ pretty a) "" = false) as ->.
    { apply String.eqb_neq. destruct r; [contradiction | discriminate]. }
    apply String.eqb_neq in Hr. rewrite Hr.
    destruct (falsy sender); [reflexivity|]. simpl.
    now destruct (Transactions.isValid _) as [[|]|].
  - intros p txs h n. unfold Block.calculateHash, Block.text, Block.preimage. simpl.
    now rewrite pretty_Z_digits, !string_app_assoc by assumption.
Qed.

End BoundaryFacts.

(** ** Sealed blocks *)

Lemma sealed_le (d d' : nat) (h : string) :
  (d' <= d)%nat -> Block.sealed d h = true -> Block.sealed d' h = true.
Proof.
  rewrite !sealed_zeros. revert d h. induction d' as [|d' IH]; intros d h Hle H.
  - now destruct h.
  - destruct d as [|d]; [lia|]. destruct h as [|c h]; [discriminate H|].
    simpl in H. injection H as -> H. simpl. f_equal. apply (IH d); [lia | exact H].
Qed.

Section SealedFacts.
Context {crypto : Crypto}.

(** X15.  A block that [mineBlock] has returned is left alone by any
    later [mineBlock] at the same or a lower difficulty: its hash already
    starts with the zeros asked for, the loop does not run, and nonce and
    hash stay as they are. *)
Theorem X15_mining_a_sealed_block_changes_nothing (fuel d : nat) (b b' : Block.t) :
  Block.mineBlock fuel d b = Some b' ->
  forall fuel' d', (d' <= d)%nat -> Block.mineBlock fuel' d' b' = Some b'.
Proof.
  intros H fuel' d' Hle.
  apply mineBlock_Some in H as (k & _ & _ & Hs & _).
  apply (sealed_le d d' _ Hle) in Hs.
  destruct fuel'; simpl; now rewrite Hs.
Qed.

End SealedFacts.

(** ** Ledgers built by the methods, once more *)

Section ReachableFacts.
Context {crypto : Crypto}.

(** X17.  What holds of every ledger built from [new Blockchain()] by
    [addTransaction] and [minePendingTransaction] calls.  The difficulty is
    2 and the reward 100; the chain starts with the genesis block; every
    later block has an empty [previousHash], a hash that starts with two
    zeros, a nonce that is not negative, and an array of transactions; and
    each transaction in those blocks or in the pool passes [isValid], and
    if it has no sender it is a reward of exactly 100 without a signature:
    [addTransaction] lets no other credit without a sender in. *)
Theorem X17_ledgers_built_by_the_methods (bc : Blockchain.t) :
  reachable bc ->
  Blockchain.difficulty bc = 2%nat
  /\ Blockchain.mimingReward bc = 100
  /\ Blockchain.chain bc !! 0%nat = Some Blockchain.createGenesisBlock
  /\ (forall i b, Blockchain.chain bc !! S i = Some b -> appended b)
  /\ Forall legitimate (Blockchain.pendingTransactions bc).
Proof.
  assert (forall bc,
            reachable bc ->
            Blockchain.difficulty bc = 2%nat
            /\ Blockchain.mimingReward bc = 100
            /\ (exists rest, Blockchain.chain bc = Blockchain.createGenesisBlock :: rest
                  /\ Forall appended rest)
            /\ Forall legitimate (Blockchain.pendingTransactions bc)) as Hinv.
  { unfold reachable. apply rtc_ind_r.
    - repeat apply conj; [reflexivity | reflexivity | | constructor].
      exists []. split; [reflexivity | constructor].
    - intros bc1 bc2 _ Hstep (Hd & Hr & (rest & Hc & Hrest) & Hpool).
      destruct Hstep as [tx bc1 | fuel now miner bc1 bc2 Hmine].
      + rewrite addTransaction_accepted. destruct (accepted tx) eqn:E; simpl.
        * repeat apply conj; [assumption | assumption | eauto |].
          apply Forall_app. split; [assumption|]. constructor; [|constructor].
          unfold accepted in E. apply andb_true_iff in E as [Ef Ev].
          apply negb_true_iff, orb_false_iff in Ef as [Ef _].
          split.
          -- unfold validTx. now destruct (Transactions.isValid tx) as [[|]|].
          -- intros Hnone. rewrite Hnone in Ef. discriminate Ef.
        * repeat apply conj; eauto.
      + apply minePendingTransaction_Some in Hmine as (mined & k & Hm & Hs & ->).
        destruct (afterNonces_fields k
                    (Block.new now (Block.TxArray (Blockchain.pendingTransactions bc1)) ""))
          as (_ & Hx & Hprev & Hn).
        rewrite <- Hm in Hx, Hprev, Hn. simpl in Hx, Hprev, Hn. simpl.
        repeat apply conj; [assumption | assumption | |].
        * exists (rest ++ [mined]). rewrite Hc. split; [reflexivity|].
          apply Forall_app. split; [assumption|]. constructor; [|constructor].
          rewrite Hd in Hs. repeat apply conj; [assumption | assumption | lia | eauto].
        * constructor; [|constructor]. split; [now apply isValid_reward|].
          intros _. simpl. now split. }
  intros H. destruct (Hinv bc H) as (Hd & Hr & (rest & Hc & Hrest) & Hpool).
  repeat apply conj; try assumption.
  - now rewrite Hc.
  - intros i b Hb. rewrite Hc in Hb. simpl in Hb.
    apply (proj1 (Forall_lookup _ _) Hrest i b Hb).
Qed.

End ReachableFacts.

(** ** The further properties on concrete inputs *)

Example demo_twice_mined :
  @Blockchain.minePendingTransaction Demo.crypto 126 Sample.now2 (Some "miner")
    Demo.minedLedger = Some Sample.twiceMined.
Proof. vm_cast_no_check (eq_refl (Some Sample.twiceMined)). Qed.


Lemma demo_signature_nonempty (k : @KeyPair Demo.crypto) (h : string) :
  @signDER Demo.crypto k h <> "".
Proof. discriminate. Qed.

Lemma X1_balance_counts_mined_transactions_only_witness :
  Blockchain.getAddressOfBalance (Some Demo.myWalletAddress) Sample.twiceMined
  = received (Some Demo.myWalletAddress) (minedTxs Sample.twiceMined)
    - sent (Some Demo.myWalletAddress) (minedTxs Sample.twiceMined)
  /\ received (Some Demo.myWalletAddress) (minedTxs Sample.twiceMined) = 100
  /\ sent (Some Demo.myWalletAddress) (minedTxs Sample.twiceMined) = 10.
Proof.
  destruct (@X1_balance_counts_mined_transactions_only Demo.crypto
              (Some Demo.myWalletAddress) Sample.twiceMined) as [Hclosed _].
  - vm_compute. discriminate.
  - repeat apply conj; [exact Hclosed | vm_compute; reflexivity | vm_compute; reflexivity].
Defined.

Lemma X2_reward_is_credited_by_the_next_block_witness :
  Blockchain.getAddressOfBalance (Some Demo.myWalletAddress) Demo.minedLedger = -10
  /\ Blockchain.getAddressOfBalance (Some Demo.myWalletAddress) Sample.twiceMined = 90.
Proof.
  split; [vm_compute; reflexivity|].
  pose proof demo_mined as H1. rewrite mined_unfold in H1.
  assert (volume (minedTxs (@Blockchain.addTransaction Demo.crypto
                              (@Main.tx1 Demo.crypto Demo.myKey Demo.recipient)
                              (@Blockchain.new Demo.crypto)).1
                  ++ Blockchain.pendingTransactions
                       (@Blockchain.addTransaction Demo.crypto
                          (@Main.tx1 Demo.crypto Demo.myKey Demo.recipient)
                          (@Blockchain.new Demo.crypto)).1)
          + Z.abs (Blockchain.mimingReward
                     (@Blockchain.addTransaction Demo.crypto
                        (@Main.tx1 Demo.crypto Demo.myKey Demo.recipient)
                        (@Blockchain.new Demo.crypto)).1)
          <= maxSafeInteger) as Hbound.
  { vm_compute. discriminate. }
  etrans.
  - exact (@X2_reward_is_credited_by_the_next_block Demo.crypto _ _ _ _ _ _ _ _ _
             Hbound H1 demo_twice_mined).
  - vm_compute. reflexivity.
Defined.

Lemma X3_balances_sum_to_zero_witness :
  totalBalance [None; Some Demo.myWalletAddress; Some Demo.recipient] Sample.twiceMined = 0.
Proof.
  apply X3_balances_sum_to_zero.
  - vm_compute. discriminate.
  - apply (bool_decide_unpack _). vm_compute. exact I.
  - intros b txs tx Hb Hx Htx. simpl in Hb.
    repeat (apply elem_of_cons in Hb as [->|Hb]); try (now apply elem_of_nil in Hb);
      simpl in Hx; try discriminate Hx; injection Hx as <-;
      repeat (apply elem_of_cons in Htx as [->|Htx]); try (now apply elem_of_nil in Htx);
      split; apply (bool_decide_unpack _); vm_compute; exact I.
Defined.


Lemma X7_mined_nonce_is_the_first_that_meets_the_target_witness :
  exists mined,
    Blockchain.getLatestBlock Demo.freshMined = Some mined
    /\ Block.sealed 2 (Block.hash mined) = true
    /\ Block.nonce mined = 14
    /\ Block.hash mined = @Block.calculateHash Demo.crypto mined
    /\ forall n, 1 <= n < 14 ->
         Block.sealed 2
           (@SHA256 Demo.crypto
              (Block.preimage "" Demo.now (Block.TxArray []) (pretty n))) = false.
Proof.
  destruct (@X7_mined_nonce_is_the_first_that_meets_the_target Demo.crypto 14 Demo.now
              (Some "miner") (@Blockchain.new Demo.crypto) Demo.freshMined demo_fresh_mined)
    as (mined & Hlatest & Hs & Hcases).
  exists mined.
  assert (Block.nonce mined = 14) as Hn.
  { change (Blockchain.getLatestBlock Demo.freshMined)
      with (Some (Block.Build Demo.now (Block.TxArray []) ""
                    "001d06005bf51909a0253e45719329fbad8ec9e702e16b1647f445ccccf1c64a" 14))
      in Hlatest.
    injection Hlatest as <-. reflexivity. }
  destruct Hcases as [[H0 _] | (_ & Hh & _ & Hleast)]; [rewrite Hn in H0; discriminate H0|].
  rewrite Hn in Hleast.
  repeat apply conj; [exact Hlatest | exact Hs | exact Hn | exact Hh | exact Hleast].
Defined.

Lemma X9_first_block_is_never_examined_witness :
  @Blockchain.isChainValid Demo.crypto
    (Blockchain.Build [Sample.otherFirst; Demo.linkedBlock] 0 [] 0) = Return true.
Proof.
  etrans; [|exact demo_linked_valid].
  apply (@X9_first_block_is_never_examined Demo.crypto Demo.genesis Sample.otherFirst).
  reflexivity.
Defined.

Lemma X11_changed_hash_fields_are_rejected_witness :
  @Blockchain.isChainValid Demo.crypto
    (Blockchain.set_chain
       (<[1%nat := Block.set_hash "00" Demo.linkedBlock]> (Blockchain.chain Demo.linked))
       Demo.linked) = Return false
  /\ @Blockchain.isChainValid Demo.crypto
       (Blockchain.set_chain
          (<[0%nat := Block.set_hash "00" Demo.genesis]> (Blockchain.chain Demo.linked))
          Demo.linked) = Return false.
Proof.
  destruct (@X11_changed_hash_fields_are_rejected Demo.crypto Demo.linked demo_linked_valid)
    as [Hlater Hfirst].
  split.
  - apply (Hlater 0%nat Demo.linkedBlock); [reflexivity | reflexivity |].
    right. repeat apply conj; [|reflexivity..].
    intros H. vm_compute in H. discriminate H.
  - apply (Hfirst Demo.genesis _ Demo.linkedBlock); [reflexivity | reflexivity |].
    intros H. vm_compute in H. discriminate H.
Defined.


Lemma X13_a_signed_transaction_is_accepted_witness :
  let tx := Transactions.new (Some Demo.myWalletAddress) (Some Demo.recipient) 25 in
  @Transactions.isValid Demo.crypto (@Transactions.signTransaction Demo.crypto Demo.myKey tx).1
  = Return true
  /\ (@Transactions.signTransaction Demo.crypto Demo.myKey tx).2 = Return ().
Proof.
  intros tx.
  destruct (@X13_a_signed_transaction_is_accepted Demo.crypto Demo.myKey tx
              demo_signature_nonempty demo_signature_verifies eq_refl)
    as (Hret & _ & Hvalid & _).
  split; [exact Hvalid | exact Hret].
Defined.

Lemma X14_hashed_fields_are_not_delimited_witness :
  @Transactions.isValid Demo.crypto
    (Transactions.Build (Some Demo.myWalletAddress) (Some (Demo.recipient +:+ pretty 1)) 0
       (Transactions.signature Demo.tx1))
  = Return true.
Proof.
  destruct (X14_hashed_fields_are_not_delimited (crypto := Demo.crypto) 1 0) as [Htx _];
    [lia | lia | unfold maxSafeInteger; lia |].
  destruct (Htx (Some Demo.myWalletAddress) Demo.recipient (Transactions.signature Demo.tx1))
    as (_ & Hvalid & _).
  etrans; [exact Hvalid | exact demo_tx1_valid].
Defined.

Lemma X15_mining_a_sealed_block_changes_nothing_witness :
  let b := Block.Build Demo.now (Block.TxArray []) ""
             "001d06005bf51909a0253e45719329fbad8ec9e702e16b1647f445ccccf1c64a" 14 in
  @Block.mineBlock Demo.crypto 0 1 b = Some b.
Proof.
  intros b.
  apply (@X15_mining_a_sealed_block_changes_nothing Demo.crypto 14 2
           (@Block.new Demo.crypto Demo.now (Block.TxArray []) "") b);
    [vm_compute; reflexivity | lia].
Defined.

Lemma X17_ledgers_built_by_the_methods_witness :
  @reachable Demo.crypto Sample.twiceMined
  /\ Blockchain.difficulty Sample.twiceMined = 2%nat
  /\ Blockchain.mimingReward Sample.twiceMined = 100
  /\ Blockchain.chain Sample.twiceMined !! 0%nat = Some (@Blockchain.createGenesisBlock Demo.crypto)
  /\ (forall i b, Blockchain.chain Sample.twiceMined !! S i = Some b ->
        @appended Demo.crypto b)
  /\ Forall (@legitimate Demo.crypto) (Blockchain.pendingTransactions Sample.twiceMined).
Proof.
  assert (@reachable Demo.crypto Sample.twiceMined) as Hreach.
  { pose proof demo_mined as H1. rewrite mined_unfold in H1.
    eapply rtc_r; [eapply rtc_r; [apply rtc_once|]|].
    - apply (@step_addTransaction Demo.crypto).
    - exact (@step_minePendingTransaction Demo.crypto _ _ _ _ _ H1).
    - exact (@step_minePendingTransaction Demo.crypto _ _ _ _ _ demo_twice_mined). }
  split; [exact Hreach|].
  exact (@X17_ledgers_built_by_the_methods Demo.crypto Sample.twiceMined Hreach).
Defined.
